(** * gosample/sso: the authentication pipeline

    A shallow embedding of [server/auth_handler.go] and of the user-handler
    source file (IP range checker, [UserImpl], [dbUserHandler.toUser],
    [ReplacePlaceholders]), followed by the properties of the specification
    that were checked against it.

    Conventions.
    - A Go [string] is a Rocq [string] (a sequence of bytes).
    - [uint32], [int] and [time.Duration] values are integers in [Z].
    - A [time.Time] is the instant it denotes, counted in nanoseconds from
      the zero time (January 1, year 1, 00:00:00 UTC), so that [IsZero] is
      the test against [0].  [time.Now()] is the explicit argument [now].
    - A Go result pair [(v, err)] is a Rocq pair whose second component is an
      [option error]; [None] is the [nil] error.
    - A [map[string]interface{}] is a [gmap string Value]. *)

From Stdlib Require Import ZArith String Ascii List Lia Bool DecimalString.
From stdpp Require Import base gmap strings list.

Open Scope Z_scope.

(** ** Dynamic values and errors *)

Definition Time := Z.
Definition Duration := Z.

Definition IsZero (t : Time) : bool := t =? 0.
Definition Add (t : Time) (d : Duration) : Time := t + d.
Definition Before (t u : Time) : bool := t <? u.

(** The dynamic types a column value of a row can have ([interface{}]). *)
Inductive Value :=
| VNil
| VString (s : string)
| VBytes (b : string)
| VTime (t : Time)
| VInt64 (n : Z)
| VFloat64 (bits : Z)
| VBool (b : bool).

Abbreviation Row := (gmap string Value).

(** [data[key]]: indexing a Go map gives the zero value, the nil interface,
    for a key that is absent. *)
Definition index_map (data : Row) (key : string) : Value :=
  default VNil (data !! key).

(** Modelled from the spec: the package-level error values [ErrUsernameEmpty],
    [ErrUserNotFound], [ErrMutiUsers], [ErrPasswordEmpty],
    [ErrPasswordNotMatch], [ErrSignatureInvalid], [ErrUserLocked] and
    [ErrUserIPBlocked] are used by the source but declared in a file that is
    not part of it; section 7 of the specification lists them as separate
    kinds, so each one is a constructor of its own.  [errorsNew] and
    [fmtErrorf] are the errors built in place by [errors.New] and
    [fmt.Errorf]; the latter keeps its format and arguments unformatted. *)
Inductive error :=
| ErrUsernameEmpty
| ErrUserNotFound
| ErrMutiUsers
| ErrPasswordEmpty
| ErrPasswordNotMatch
| ErrSignatureInvalid
| ErrUserLocked
| ErrUserIPBlocked
| errorsNew (msg : string)
| fmtErrorf (format : string) (args : list Value).

(** ** IPv4 addresses ([net.IP], [encoding/binary]) *)

(** A [net.IP] is a byte slice of length 4 or 16. *)
Definition IP := list Z.

Definition IPv4len : nat := 4.
Definition IPv6len : nat := 16.

Definition isZeros (p : list Z) : bool := forallb (fun b => b =? 0) p.

(** [ip.To4()]: the 4-byte form of an IPv4 address, [None] for [nil]. *)
Definition To4 (ip : IP) : option IP :=
  if Nat.eqb (length ip) IPv4len then Some ip
  else if Nat.eqb (length ip) IPv6len
          && isZeros (take 10 ip)
          && (nth 10 ip 0 =? 255) && (nth 11 ip 0 =? 255)
       then Some (drop 12 (take 16 ip))
       else None.

(** [binary.BigEndian.Uint32(b)]. *)
Definition Uint32 (b : list Z) : Z :=
  Z.lor (Z.lor (Z.lor (nth 3 b 0) (Z.shiftl (nth 2 b 0) 8))
               (Z.shiftl (nth 1 b 0) 16))
        (Z.shiftl (nth 0 b 0) 24).

(** ** The range checker *)

Record ipRange := { start : Z; end_ : Z }.

(** [(r *ipRange) Contains(ip)]. *)
Definition ipRange_Contains (r : ipRange) (ip : IP) : bool :=
  match To4 ip with
  | None => false
  | Some b =>
      let v := Uint32 b in
      (start r <=? v) || (v <=? end_ r)
  end.

(** [IPRange(start, end)], as far as the range itself goes. *)
Definition IPRange (s e : IP) : ipRange + error :=
  match To4 s with
  | None => inr (errorsNew "ip range 不支持 IPv6")
  | Some s4 =>
      match To4 e with
      | None => inr (errorsNew "ip range 不支持 IPv6")
      | Some e4 => inl {| start := Uint32 s4; end_ := Uint32 e4 |}
      end
  end.

(** ** The handler configuration *)

Module Db.
Record dbUserHandler := {
  querySQL : string;
  lockSQL : string;
  passwordName : string;
  blockIPList : string;
  lockedFieldName : string;
  lockedTimeExpires : Duration;
  lockedTimeLayout : string
}.
End Db.

(** ** Results and the record of store accesses

    [Auth] is the only function here that talks to the backing store, through
    [userHandler.Read].  Its model returns, next to the result, the list of
    the calls it made to the user handler, in order. *)

Inductive Call :=
| CallRead (username address : string).

Definition Traced (A : Type) : Type := list Call * A.

Definition ret {A} (a : A) : Traced A := ([], a).

Definition bind {A B} (m : Traced A) (k : A -> Traced B) : Traced B :=
  let '(t1, a) := m in
  let '(t2, b) := k a in
  (t1 ++ t2, b).

Notation "x <- m ;; k" := (bind m (fun x => k))
  (at level 100, m at next level, right associativity).

(** Sequencing of steps that may fail with an error. *)
Definition and_then {A B} (m : A + error) (k : A -> B + error) : B + error :=
  match m with
  | inl a => k a
  | inr e => inr e
  end.

Notation "x <-? m ;; k" := (and_then m (fun x => k))
  (at level 100, m at next level, right associativity).

(** ** The standard library the source calls

    Parsers and helpers of Go's standard library that the source calls and
    whose text is not part of the repository.  The development is
    parametric in them; [None] stands for a [nil] result or a non-nil
    error, as the caller only tests for it. *)
Class StdLib := {
  (** [net.ParseIP] *)
  ParseIP : string -> option IP;
  (** [net.SplitHostPort], the host it returns (empty on error) *)
  SplitHostPort_host : string -> string;
  (** [*net.IPNet] and its [Contains] *)
  IPNet : Type;
  IPNet_Contains : IPNet -> IP -> bool;
  (** [net.ParseCIDR], the network it returns *)
  ParseCIDR : string -> option IPNet;
  (** [time.Parse layout s] *)
  time_Parse : string -> string -> option Time;
  (** [json.Unmarshal] into a [[]string] *)
  json_Unmarshal : string -> option (list string);
  (** [strings.TrimSpace], [strings.Contains], [strings.Split] *)
  strings_TrimSpace : string -> string;
  strings_Contains : string -> string -> bool;
  strings_Split : string -> string -> list string
}.

Section Server.
Context `{StdLib}.

(** [IPRangeWith(start, end)]. *)
Definition IPRangeWith (s e : string) : ipRange + error :=
  match ParseIP s with
  | None => inr (errorsNew (s +:+ " is invalid address"))
  | Some sip =>
      match ParseIP e with
      | None => inr (errorsNew (e +:+ " is invalid address"))
      | Some eip => IPRange sip eip
      end
  end.

(** The [IPChecker] interface has two implementations in the source:
    [*ipRange] and [*net.IPNet]. *)
Inductive IPChecker :=
| RangeChecker (r : ipRange)
| NetChecker (n : IPNet).

Definition Contains (c : IPChecker) (ip : IP) : bool :=
  match c with
  | RangeChecker r => ipRange_Contains r ip
  | NetChecker n => IPNet_Contains n ip
  end.

(** ** Requests and the caller address *)

(** What [RealIP] reads of an [*http.Request]: the peer address and the
    header lookup [req.Header.Get]. *)
Record Request := {
  RemoteAddr : string;
  Header_Get : string -> string
}.

Definition HeaderXForwardedFor : string := "X-Forwarded-For".
Definition HeaderXRealIP : string := "X-Real-IP".

Definition RealIP (req : Request) : string :=
  let ip := Header_Get req HeaderXForwardedFor in
  if negb (ip =? "")%string then ip
  else
    let ip := Header_Get req HeaderXRealIP in
    if negb (ip =? "")%string then ip
    else SplitHostPort_host (RemoteAddr req).

(** ** User records *)

Record UserImpl := {
  name : string;
  password : string;
  lockedAt : Time;
  lockedTimeExpires : Duration;
  blockIPList : list IPChecker;
  data : Row
}.

Definition Name (u : UserImpl) : string := name u.
Definition Password (u : UserImpl) : string := password u.
Definition Data (u : UserImpl) : Row := data u.

(** The loop over the block list in [CanUse]: [blocked] starts [true] and
    the first checker that contains [ip] clears it and leaves the loop. *)
Fixpoint blocked_by (l : list IPChecker) (ip : IP) : bool :=
  match l with
  | [] => true
  | checker :: rest =>
      if Contains checker ip then false else blocked_by rest ip
  end.

(** The first block of [CanUse], the check of the caller address
    [currentAddr] against a block list that is not empty: the error it
    returns with, [None] when control goes on to the lock check. *)
Definition CanUse_address (u : UserImpl) (currentAddr : string) : option error :=
  if negb (Nat.eqb (length (blockIPList u)) 0) then
    match ParseIP currentAddr with
    | None =>
        Some (errorsNew ("client address is invalid - '" +:+ currentAddr +:+ "'"))
    | Some ip =>
        if blocked_by (blockIPList u) ip then Some ErrUserIPBlocked else None
    end
  else None.

(** The second block of [CanUse], the lock check, and the final return. *)
Definition CanUse_lock (u : UserImpl) (now : Time) : bool * option error :=
  if negb (IsZero (lockedAt u)) then
    if lockedTimeExpires u =? 0 then (false, Some ErrUserLocked)
    else if Before now (Add (lockedAt u) (lockedTimeExpires u))
         then (false, Some ErrUserLocked)
         else (true, None)
  else (true, None).

(** [(u *UserImpl) CanUse(req)]: the address check on [RealIP(req)], then
    the lock check. *)
Definition CanUse (u : UserImpl) (req : Request) (now : Time)
  : bool * option error :=
  match CanUse_address u (RealIP req) with
  | Some e => (false, Some e)
  | None => CanUse_lock u now
  end.

(** ** Rows to user records *)

Definition RFC3339Nano : string := "2006-01-02T15:04:05.999999999Z07:00".
Definition RFC3339 : string := "2006-01-02T15:04:05Z07:00".

(** The loop of [parseTime] over the fallback layouts; the zero time when
    none of them parses [s]. *)
Fixpoint parseTime_layouts (layouts : list string) (s : string) : Time :=
  match layouts with
  | [] => 0
  | layout :: rest =>
      match time_Parse layout s with
      | Some t => t
      | None => parseTime_layouts rest s
      end
  end.

Definition parseTime (layout s : string) : Time :=
  let fallback :=
    parseTime_layouts
      [RFC3339Nano; RFC3339; "2006-01-02 15:04:05.999999999Z07:00"%string] s in
  if negb (layout =? "")%string then
    match time_Parse layout s with
    | Some t => t
    | None => fallback
    end
  else fallback.

(** The loop of [toUser] over the entries of the block-list column. *)
Fixpoint toUser_blockIPList (ah : Db.dbUserHandler) (ipList : list string)
    (blockIPList : list IPChecker) : list IPChecker + error :=
  match ipList with
  | [] => inl blockIPList
  | s :: rest =>
      let s := strings_TrimSpace s in
      let invalid :=
        fmtErrorf ("value of '" +:+ Db.blockIPList ah +:+ "' isn't invalid ip range - %s")
                  [VString s] in
      if (s =? "")%string then toUser_blockIPList ah rest blockIPList
      else if strings_Contains s "-" then
        let ss := strings_Split s "-" in
        if negb (Nat.eqb (length ss) 2) then inr invalid
        else
          match IPRangeWith (nth 0 ss ""%string) (nth 1 ss ""%string) with
          | inr _ => inr invalid
          | inl checker =>
              toUser_blockIPList ah rest (blockIPList ++ [RangeChecker checker])
          end
      else if strings_Contains s "/" then
        match ParseCIDR s with
        | None => inr invalid
        | Some cidr => toUser_blockIPList ah rest (blockIPList ++ [NetChecker cidr])
        end
      else
        match IPRangeWith s s with
        | inr _ => inr invalid
        | inl checker =>
            toUser_blockIPList ah rest (blockIPList ++ [RangeChecker checker])
        end
  end.

(** [(ah *dbUserHandler) toUser(user, data)]. *)
Definition toUser (ah : Db.dbUserHandler) (user : string) (data : Row)
  : UserImpl + error :=
  password <-?
    match index_map data (Db.passwordName ah) with
    | VNil => inl ""%string
    | VString s => inl s
    | o => inr (fmtErrorf ("value of '" +:+ Db.passwordName ah +:+ "' isn't string - %T") [o])
    end ;;
  lockedAt <-?
    match index_map data (Db.lockedFieldName ah) with
    | VNil => inl 0
    | VBytes v =>
        if negb (Nat.eqb (String.length v) 0) then
          let t := parseTime (Db.lockedTimeLayout ah) v in
          if IsZero t
          then inr (fmtErrorf ("value of '" +:+ Db.lockedFieldName ah +:+ "' isn't time - %s")
                              [VString v])
          else inl t
        else inl 0
    | VString v =>
        if negb (v =? "")%string then
          let t := parseTime (Db.lockedTimeLayout ah) v in
          if IsZero t
          then inr (fmtErrorf ("value of '" +:+ Db.lockedFieldName ah +:+ "' isn't time - %s")
                              [VString v])
          else inl t
        else inl 0
    | VTime v => inl v
    | o => inr (fmtErrorf ("value of '" +:+ Db.lockedFieldName ah +:+ "' isn't time - %T:%v")
                          [o; o])
    end ;;
  blockIPList <-?
    match index_map data (Db.blockIPList ah) with
    | VNil => inl []
    | VString s =>
        match json_Unmarshal s with
        | None => inr (fmtErrorf ("value of '" +:+ Db.blockIPList ah +:+ "' isn't []string - %s")
                                 [VString s])
        | Some ipList => toUser_blockIPList ah ipList []
        end
    | o => inr (fmtErrorf ("value of '" +:+ Db.blockIPList ah +:+ "' isn't string - %T: %s")
                          [o; o])
    end ;;
  inl {| name := user;
         password := password;
         lockedAt := lockedAt;
         lockedTimeExpires := Db.lockedTimeExpires ah;
         blockIPList := blockIPList;
         data := data |}.

(** ** The authentication handler *)

(** The [SigningMethod] interface: [Verify(password, expected, key)]. *)
Record SigningMethod := {
  Verify : string -> string -> string -> option error
}.

(** The methods [Auth] calls on a user: [IsValid(address)], [Password()]
    and [Data()]. *)
Record User := {
  User_IsValid : string -> Time -> bool * option error;
  User_Password : string;
  User_Data : Row
}.

(** The method [Auth] calls on its user handler: [Read(username, address)]. *)
Record UserHandler := {
  Read : string -> string -> list User * option error
}.

Record userAuthenticationHandler := {
  userHandler : UserHandler;
  signingMethod : SigningMethod;
  secretKey : string
}.

Definition call_Read (h : UserHandler) (username address : string)
  : Traced (list User * option error) :=
  ([CallRead username address], Read h username address).

Definition AuthResult : Type := option Row * option error.

(** [(ah *userAuthenticationHandler) Auth(address, username, password)].
    The two tests on [len(users)] are the first and the last case of the
    match on [users]; [users[0]] is the element of the middle one. *)
Definition Auth (ah : userAuthenticationHandler)
    (address username password : string) (now : Time) : Traced AuthResult :=
  if (username =? "")%string then ret (None, Some ErrUsernameEmpty)
  else
    r <- call_Read (userHandler ah) username address ;;
    let '(users, err) := r in
    match err with
    | Some e => ret (None, Some e)
    | None =>
        match users with
        | [] => ret (None, Some ErrUserNotFound)
        | [user] =>
            let '(ok, err) := User_IsValid user address now in
            match err with
            | Some e => ret (None, Some e)
            | None =>
                if negb ok then ret (None, Some (errorsNew "user is inused"))
                else
                  let exceptedPassword := User_Password user in
                  if (exceptedPassword =? "")%string
                  then ret (None, Some ErrPasswordEmpty)
                  else
                    match Verify (signingMethod ah) password exceptedPassword
                                 (secretKey ah) with
                    | Some ErrSignatureInvalid => ret (None, Some ErrPasswordNotMatch)
                    | Some e => ret (None, Some e)
                    | None => ret (Some (User_Data user), None)
                    end
            end
        | _ :: _ :: _ => ret (None, Some ErrMutiUsers)
        end
    end.

(** Modelled from the spec: [Auth] calls [IsValid(address)] on the user, a
    method that the source of [UserImpl] does not have; there the usability
    check is [CanUse(req)], which takes the address from [RealIP(req)].
    Section 4.5 of the specification has [Auth] run the usability check of
    section 4.3 on the caller address, so [IsValid] is the two blocks of
    [CanUse] with [address] as the current address. *)
Definition IsValid (u : UserImpl) (address : string) (now : Time)
  : bool * option error :=
  match CanUse_address u address with
  | Some e => (false, Some e)
  | None => CanUse_lock u now
  end.

(** A [*UserImpl] seen through the interface of [Auth]. *)
Definition as_User (u : UserImpl) : User :=
  {| User_IsValid := IsValid u;
     User_Password := Password u;
     User_Data := Data u |}.

End Server.

(** ** Placeholder rewriting *)

Local Open Scope string_scope.

(** [strings.Index(s, "?")]: the index of the first ['?'], or [-1]. *)
Fixpoint Index_qmark (s : string) : Z :=
  match s with
  | EmptyString => -1
  | String c rest =>
      if Ascii.eqb c "?"%char then 0
      else let p := Index_qmark rest in
           if (p =? -1)%Z then -1 else (p + 1)%Z
  end.

(** The slices [s[:p]], [s[p:]] and [s[p:q]] of a string, for indices in
    range. *)
Definition slice_to (s : string) (p : Z) : string :=
  substring 0 (Z.to_nat p) s.
Definition slice_from (s : string) (p : Z) : string :=
  substring (Z.to_nat p) (String.length s - Z.to_nat p) s.
Definition slice (s : string) (p q : Z) : string :=
  substring (Z.to_nat p) (Z.to_nat q - Z.to_nat p) s.

Definition len (s : string) : Z := Z.of_nat (String.length s).

(** [fmt.Sprintf("$%d", i)] for [i >= 0]. *)
Definition format_dollar (i : Z) : string :=
  "$" ++ NilZero.string_of_uint (N.to_uint (Z.to_N i)).

(** The loop of [ReplacePlaceholders]: [sql] is what is left of the input,
    [i] the number of placeholders numbered so far and [buf] the buffer.
    Every turn removes at least one byte of [sql]; [fuel] bounds the number
    of turns, and [None] is returned when it runs out. *)
Fixpoint ReplacePlaceholders_loop (fuel : nat) (sql : string) (i : Z)
    (buf : string) : option string :=
  match fuel with
  | O => None
  | S fuel =>
      let p := Index_qmark sql in
      if (p =? -1)%Z then Some (buf ++ sql)
      else if (len (slice_from sql p) >? 1)%Z && (slice sql p (p + 2) =? "??")
      then
        let buf := (buf ++ slice_to sql p) ++ "?" in
        if (len (slice_from sql p) =? 1)%Z then Some (buf ++ sql)
        else ReplacePlaceholders_loop fuel (slice_from sql (p + 2)) i buf
      else
        let i := (i + 1)%Z in
        let buf := (buf ++ slice_to sql p) ++ format_dollar i in
        ReplacePlaceholders_loop fuel (slice_from sql (p + 1)) i buf
  end.

(** [ReplacePlaceholders(sql)]. *)
Definition ReplacePlaceholders (sql : string) : option string :=
  ReplacePlaceholders_loop (S (String.length sql)) sql 0 "".

(** The rewriting in the words of the specification: reading left to
    right, a doubled placeholder becomes one literal placeholder and uses
    no number, a single placeholder becomes [$n] for the next number [n],
    and every other byte is kept.  [n] is the last number used. *)
Fixpoint rewrite_from (n : Z) (s : string) : string :=
  match s with
  | EmptyString => EmptyString
  | String c rest =>
      if Ascii.eqb c "?"%char then
        match rest with
        | String c' rest' =>
            if Ascii.eqb c' "?"%char then String "?"%char (rewrite_from n rest')
            else format_dollar (n + 1) ++ rewrite_from (n + 1) rest
        | EmptyString => format_dollar (n + 1)
        end
      else String c (rewrite_from n rest)
  end.

Definition rewrite_spec (s : string) : string := rewrite_from 0 s.

Local Close Scope string_scope.

(** ** Escaped placeholders *)

(** Whether [s] holds a doubled placeholder, two ['?'] next to each other. *)
Fixpoint has_doubled (s : string) : bool :=
  match s with
  | EmptyString => false
  | String c rest =>
      match rest with
      | String c' _ =>
          (Ascii.eqb c "?"%char && Ascii.eqb c' "?"%char) || has_doubled rest
      | EmptyString => false
      end
  end.

(** A byte of an address. *)
Definition is_byte (x : Z) : Prop := 0 <= x < 256.

(** ** The database and the construction of the handlers *)

#[global] Instance Value_eq_dec : EqDecision Value.
Proof. solve_decision. Defined.

#[global] Instance error_eq_dec : EqDecision error.
Proof. solve_decision. Defined.

(** A value that [rows.Scan] stored in an [interface{}]: a byte slice that
    is nil, or any other value, a [VBytes] being a byte slice that is not
    nil. *)
Inductive Cell :=
| CellNilBytes
| CellValue (v : Value).

(** What [ReadUser] sees of a [*sql.Rows]: the result of [rows.Columns()],
    the result of [rows.Scan] for each row that [rows.Next()] delivers, in
    order, and [rows.Err()] once [rows.Next()] has returned [false]. *)
Record Rows := {
  rows_Columns : list string + error;
  rows_Scan : list (list Cell + error);
  rows_Err : option error
}.

(** A [sql.Result], by what [RowsAffected()] returns. *)
Record Result := {
  RowsAffected : Z + error
}.

(** The fields of [DbConfig] that [createDbUserHandler] reads; [URL] is
    the pair that [config.URL()] hands to [sql.Open], and a [Params] that is
    [None] is the nil map. *)
Record DbConfig := {
  DbType : string;
  URL : string * string;
  Params : option Row
}.

(** The database side of the standard library, and [time.ParseDuration]. *)
Class SqlLib := {
  DB : Type;
  (** [sql.Open(driverName, dataSourceName)] *)
  sql_Open : string -> string -> DB + error;
  (** [sql.ErrNoRows] *)
  sql_ErrNoRows : error;
  (** [db.Query(query, username)] *)
  db_Query : DB -> string -> string -> Rows + error;
  (** [db.Exec(query, now, username)] *)
  db_Exec : DB -> string -> Time -> string -> Result + error;
  (** [time.ParseDuration] *)
  time_ParseDuration : string -> option Duration
}.

(** The registry of signing methods, which is not part of the source:
    [methodDefault] and [GetSigningMethod(name)], [None] for [nil]. *)
Class Signing := {
  methodDefault : SigningMethod;
  GetSigningMethod : string -> option SigningMethod
}.

(** The calls of [LockUser] to the database. *)
Inductive DbCall :=
| CallExec (query : string) (now : Time) (username : string).

(** A configuration parameter read as the constructors read it,
    [o, ok := params[key]; ok && o != nil] followed by [o.(string)]: absent
    or nil, of another type than string, or a string. *)
Inductive param :=
| param_absent
| param_other
| param_string (s : string).

Definition string_param (params : Row) (key : string) : param :=
  match params !! key with
  | None => param_absent
  | Some VNil => param_absent
  | Some (VString s) => param_string s
  | Some _ => param_other
  end.

(** The configuration argument of [CreateUserAuthenticationHandler], an
    [interface{}]: nil, a [map[string]interface{}], or something else. *)
Inductive AuthConfig :=
| config_nil
| config_map (m : Row)
| config_other.

(** [ReplacePlaceholders] as the string it returns; its loop always ends,
    so the second case is never taken. *)
Definition ReplacePlaceholders_string (sql : string) : string :=
  match ReplacePlaceholders sql with
  | Some out => out
  | None => sql
  end.

Section Database.
Context `{StdLib} `{SqlLib} `{Signing}.

(** [CreateUserAuthenticationHandler(userHandler, config)].  A nil map
    reads like an empty one, so [params] is the empty map when [config] is
    nil. *)
Definition CreateUserAuthenticationHandler (userHandler : UserHandler)
    (config : AuthConfig) : userAuthenticationHandler + error :=
  match config with
  | config_other => inr (errorsNew "arguments of AuthConfg isn't map")
  | _ =>
      let params : Row :=
        match config with
        | config_map m => m
        | _ => ∅
        end in
      match string_param params "passwordHashAlg" with
      | param_absent =>
          inl {| userHandler := userHandler;
                 signingMethod := methodDefault;
                 secretKey := "" |}
      | param_other =>
          inr (errorsNew "数据库配置中的 passwordHashAlg 的值不是字符串")
      | param_string s =>
          hashKey <-?
            match string_param params "passwordHashKey" with
            | param_absent => inl ""%string
            | param_other =>
                inr (errorsNew "数据库配置中的 passwordHashKey 的值不是字符串")
            | param_string k => inl k
            end ;;
          match GetSigningMethod s with
          | None => inr (errorsNew "在数据库配置中的 passwordHashAlg 的算法不支持")
          | Some signingMethod =>
              inl {| userHandler := userHandler;
                     signingMethod := signingMethod;
                     secretKey := hashKey |}
          end
      end
  end.

(** The part of [createDbUserHandler] that reads [config.Params]. *)
Definition createDbUserHandler_params (params : Row) : Db.dbUserHandler + error :=
  passwordName <-?
    match string_param params "password" with
    | param_absent => inl "password"%string
    | param_other => inr (errorsNew "数据库配置中的 password 的值不是字符串")
    | param_string s =>
        let s := strings_TrimSpace s in
        if negb (s =? "")%string then inl s else inl "password"%string
    end ;;
  blockIPList <-?
    match string_param params "block_list" with
    | param_absent => inl ""%string
    | param_other => inr (errorsNew "数据库配置中的 blockIPList 的值不是字符串")
    | param_string s =>
        let s := strings_TrimSpace s in
        if negb (s =? "")%string then inl s else inl ""%string
    end ;;
  locked <-?
    match string_param params "locked_at" with
    | param_absent => inl (""%string, ""%string, 0)
    | param_other => inr (errorsNew "数据库配置中的 locked_at 的值不是字符串")
    | param_string s =>
        let s := strings_TrimSpace s in
        if negb (s =? "")%string then
          lockedTimeLayout <-?
            match string_param params "locked_format" with
            | param_absent => inl ""%string
            | param_other =>
                inr (errorsNew "数据库配置中的 locked_format 的值不是字符串")
            | param_string f =>
                if negb (strings_TrimSpace f =? "")%string then inl f
                else inl ""%string
            end ;;
          lockedTimeExpires <-?
            match string_param params "locked_time_expires" with
            | param_absent => inl 0
            | param_other =>
                inr (errorsNew "数据库配置中的 locked_time_expires 的值不是字符串")
            | param_string d =>
                let d := strings_TrimSpace d in
                if negb (d =? "")%string then
                  match time_ParseDuration d with
                  | None =>
                      inr (errorsNew
                             "数据库配置中的 locked_time_expires 的值不是有效的时间间隔")
                  | Some duration => inl duration
                  end
                else inl 0
            end ;;
          inl (s, lockedTimeLayout, lockedTimeExpires)
        else inl (""%string, ""%string, 0)
    end ;;
  querySQL <-?
    match string_param params "querySQL" with
    | param_absent => inl "SELECT * FROM users WHERE username = ?"%string
    | param_other => inr (errorsNew "数据库配置中的 querySQL 的值不是字符串")
    | param_string s =>
        if negb (strings_TrimSpace s =? "")%string then inl s
        else inl "SELECT * FROM users WHERE username = ?"%string
    end ;;
  lockSQL <-?
    match string_param params "lockSQL" with
    | param_absent => inl ""%string
    | param_other => inr (errorsNew "数据库配置中的 lockSQL 的值不是字符串")
    | param_string s =>
        if negb (strings_TrimSpace s =? "")%string then inl s else inl ""%string
    end ;;
  let '(lockedFieldName, lockedTimeLayout, lockedTimeExpires) := locked in
  inl {| Db.querySQL := querySQL;
         Db.lockSQL := lockSQL;
         Db.passwordName := passwordName;
         Db.blockIPList := blockIPList;
         Db.lockedFieldName := lockedFieldName;
         Db.lockedTimeExpires := lockedTimeExpires;
         Db.lockedTimeLayout := lockedTimeLayout |}.

(** [createDbUserHandler(params)]: [params] is [None] when it is not a
    [*DbConfig].  The [db] field of the handler is returned next to the
    record of its other fields.  A nil [config.Params] reads like the empty
    map. *)
Definition createDbUserHandler (params : option DbConfig)
  : (DB * Db.dbUserHandler) + error :=
  match params with
  | None => inr (errorsNew "arguments of UserConfig isn't DbConfig")
  | Some config =>
      match sql_Open (fst (URL config)) (snd (URL config)) with
      | inr err => inr err
      | inl db =>
          ah <-? createDbUserHandler_params (default ∅ (Params config)) ;;
          if (DbType config =? "postgres")%string
             || (DbType config =? "postgresql")%string
          then
            inl (db,
                 {| Db.querySQL := ReplacePlaceholders_string (Db.querySQL ah);
                    Db.lockSQL := ReplacePlaceholders_string (Db.lockSQL ah);
                    Db.passwordName := Db.passwordName ah;
                    Db.blockIPList := Db.blockIPList ah;
                    Db.lockedFieldName := Db.lockedFieldName ah;
                    Db.lockedTimeExpires := Db.lockedTimeExpires ah;
                    Db.lockedTimeLayout := Db.lockedTimeLayout ah |})
          else inl (db, ah)
      end
  end.

(** The conversion of a scanned value in [ReadUser]: a byte slice that is
    not nil becomes the string of its bytes. *)
Definition cell_value (c : Cell) : Value :=
  match c with
  | CellNilBytes => VBytes ""
  | CellValue (VBytes bs) => VString bs
  | CellValue v => v
  end.

(** The loop of [ReadUser] that fills the map of a row: [user[nm]] is set
    for the columns in order, from [values[idx]]. *)
Fixpoint ReadUser_row (columns : list string) (values : list Cell) (idx : nat)
    (user : Row) : Row :=
  match columns with
  | [] => user
  | nm :: rest =>
      ReadUser_row rest values (S idx)
        (<[nm := cell_value (nth idx values (CellValue VNil))]> user)
  end.

(** The loop of [ReadUser] over the rows. *)
Fixpoint ReadUser_rows (ah : Db.dbUserHandler) (username : string)
    (columns : list string + error) (scans : list (list Cell + error))
    (users : list UserImpl) : list UserImpl + error :=
  match scans with
  | [] => inl users
  | scan :: rest =>
      columns' <-? columns ;;
      values <-? scan ;;
      u <-? toUser ah username (ReadUser_row columns' values 0 ∅) ;;
      ReadUser_rows ah username columns rest (users ++ [u])
  end.

(** [(ah *dbUserHandler) ReadUser(username)].  The [err] tested once the
    rows are read is the one of [db.Query], which is nil there: the loop
    has an [err] of its own. *)
Definition ReadUser (db : DB) (ah : Db.dbUserHandler) (username : string)
  : list UserImpl * option error :=
  match db_Query db (Db.querySQL ah) username with
  | inr err =>
      if bool_decide (err = sql_ErrNoRows) then ([], None) else ([], Some err)
  | inl rows =>
      let err : option error := None in
      match ReadUser_rows ah username (rows_Columns rows) (rows_Scan rows) [] with
      | inr e => ([], Some e)
      | inl users =>
          match rows_Err rows with
          | Some _ =>
              if negb (bool_decide (err = Some sql_ErrNoRows)) then ([], err)
              else (users, None)
          | None => (users, None)
          end
      end
  end.

(** [(ah *dbUserHandler) LockUser(username)], with the calls it makes to
    the database. *)
Definition LockUser (db : DB) (ah : Db.dbUserHandler) (username : string)
    (now : Time) : list DbCall * option error :=
  if (Db.lockSQL ah =? "")%string then ([], None)
  else
    ([CallExec (Db.lockSQL ah) now username],
     match db_Exec db (Db.lockSQL ah) now username with
     | inr err => Some err
     | inl res =>
         match RowsAffected res with
         | inr err => Some err
         | inl rowsAffected =>
             if rowsAffected =? 0 then Some (errorsNew "0 updated") else None
         end
     end).

(** A value that is not a byte slice with bytes in it, and a record as
    [ReadUser] builds it for [username]. *)
Definition no_bytes (v : Value) : Prop :=
  forall bs, v = VBytes bs -> bs = ""%string.

Definition read_record (ah : Db.dbUserHandler) (username : string)
    (u : UserImpl) : Prop :=
  Name u = username /\
  lockedTimeExpires u = Db.lockedTimeExpires ah /\
  forall k v, Data u !! k = Some v -> no_bytes v.

End Database.

(** ** Durations *)

Definition Nanosecond : Duration := 1.
Definition Second : Duration := 1000000000 * Nanosecond.
Definition Minute : Duration := 60 * Second.
Definition Hour : Duration := 60 * Minute.

(** ** A standard library to evaluate examples with

    [ParseIP] reads dotted-quad IPv4 text into the 16-byte form Go returns
    for it, [SplitHostPort_host] cuts [host:port] at the first colon, and a
    network is a 32-bit address and mask.  The parsers that only [toUser]
    calls on the lock and block-list columns accept nothing here: the
    examples below build rows without these columns. *)

Fixpoint split_on (sep : ascii) (s cur : string) : list string :=
  match s with
  | EmptyString => [cur]
  | String c rest =>
      if Ascii.eqb c sep then cur :: split_on sep rest EmptyString
      else split_on sep rest (cur +:+ String c EmptyString)
  end.

Fixpoint decimal_value (s : string) (acc : Z) : option Z :=
  match s with
  | EmptyString => Some acc
  | String c rest =>
      let d := Z.of_nat (nat_of_ascii c) - 48 in
      if (0 <=? d) && (d <=? 9) then decimal_value rest (10 * acc + d) else None
  end.

Definition parse_octet (s : string) : option Z :=
  match s with
  | EmptyString => None
  | String c rest =>
      if Ascii.eqb c "0"%char && negb (rest =? "")%string then None
      else
        match decimal_value s 0 with
        | Some v => if v <=? 255 then Some v else None
        | None => None
        end
  end.

Definition v4InV6Prefix : list Z := [0; 0; 0; 0; 0; 0; 0; 0; 0; 0; 255; 255].

Definition parse_dotted_quad (s : string) : option IP :=
  match split_on "."%char s EmptyString with
  | [a; b; c; d] =>
      match parse_octet a, parse_octet b, parse_octet c, parse_octet d with
      | Some a, Some b, Some c, Some d => Some (v4InV6Prefix ++ [a; b; c; d])
      | _, _, _, _ => None
      end
  | _ => None
  end.

Definition host_of (s : string) : string :=
  match split_on ":"%char s EmptyString with
  | [host; _] => host
  | _ => EmptyString
  end.

Definition mask_contains (n : Z * Z) (ip : IP) : bool :=
  match To4 ip with
  | Some b => Z.land (Uint32 b) (snd n) =? Z.land (fst n) (snd n)
  | None => false
  end.

#[local] Instance example_lib : StdLib := {|
  ParseIP := parse_dotted_quad;
  SplitHostPort_host := host_of;
  IPNet := Z * Z;
  IPNet_Contains := mask_contains;
  ParseCIDR := fun _ => None;
  time_Parse := fun _ _ => None;
  json_Unmarshal := fun _ => None;
  strings_TrimSpace := fun s => s;
  strings_Contains := fun _ _ => false;
  strings_Split := fun s _ => [s]
|}.

(** ** Records, handlers and requests to evaluate examples with *)

Definition request_from (remote : string) : Request :=
  {| RemoteAddr := remote; Header_Get := fun _ => EmptyString |}.

(** The network 10.0.0.0/8. *)
Definition net10 : IPChecker := NetChecker (167772160, 4278190080).

(** An instant, and a user locked at that instant. *)
Definition lock_instant : Time := 63839664000 * Second.

Definition locked_user (expires : Duration) (blockList : list IPChecker)
  : UserImpl :=
  {| name := "carol";
     password := "s3cret";
     lockedAt := lock_instant;
     lockedTimeExpires := expires;
     blockIPList := blockList;
     data := {[ "username"%string := VString "carol" ]} |}.

(** A signing method that compares the two strings. *)
Definition plain_method : SigningMethod :=
  {| Verify := fun password expected _ =>
       if (password =? expected)%string then None else Some ErrSignatureInvalid |}.

(** A user handler whose store answers every lookup with [users]. *)
Definition fixed_handler (users : list User) : UserHandler :=
  {| Read := fun _ _ => (users, None) |}.

Definition handler_of (users : list User) : userAuthenticationHandler :=
  {| userHandler := fixed_handler users;
     signingMethod := plain_method;
     secretKey := EmptyString |}.

(** The handler configuration [createDbUserHandler] builds when no
    parameter is given, and a row of the [users] table. *)
Definition default_config : Db.dbUserHandler :=
  {| Db.querySQL := "SELECT * FROM users WHERE username = ?";
     Db.lockSQL := "";
     Db.passwordName := "password";
     Db.blockIPList := "";
     Db.lockedFieldName := "";
     Db.lockedTimeExpires := 0;
     Db.lockedTimeLayout := "" |}.

Definition alice_row : Row :=
  <[ "username"%string := VString "alice" ]>
    (<[ "password"%string := VString "s3cret" ]> ∅).

Definition alice : UserImpl :=
  {| name := "alice";
     password := "s3cret";
     lockedAt := 0;
     lockedTimeExpires := 0;
     blockIPList := [];
     data := alice_row |}.

(** ** A database and a registry to evaluate examples with

    The store has one row for alice and none for any other username, and an
    update touches one row for alice and none for anyone else; the registry
    knows the method [plain]. *)

Definition example_rows (username : string) : Rows :=
  {| rows_Columns := inl ["username"%string; "password"%string];
     rows_Scan :=
       if (username =? "alice")%string
       then [inl [CellValue (VBytes "alice"); CellValue (VBytes "s3cret")]]
       else [];
     rows_Err := None |}.

#[local] Instance example_sql : SqlLib := {|
  DB := unit;
  sql_Open := fun _ _ => inl tt;
  sql_ErrNoRows := errorsNew "sql: no rows in result set";
  db_Query := fun _ _ username => inl (example_rows username);
  db_Exec := fun _ _ _ username =>
    inl {| RowsAffected := inl (if (username =? "alice")%string then 1 else 0) |};
  time_ParseDuration := fun s =>
    if (s =? "30m")%string then Some (30 * Minute) else None
|}.

#[local] Instance example_signing : Signing := {|
  methodDefault := plain_method;
  GetSigningMethod := fun name =>
    if (name =? "plain")%string then Some plain_method else None
|}.

Definition example_config (dbType : string) (params : Row) : DbConfig :=
  {| DbType := dbType;
     URL := (dbType, "user:pw@/sso"%string);
     Params := Some params |}.

(** A standard library like [example_lib] whose [time.Parse] reads one
    timestamp, the first instant of 2024 in the layout [RFC3339], and a
    database like [example_sql] whose rows end with an error. *)
Definition example_lib_time : StdLib :=
  {| ParseIP := parse_dotted_quad;
     SplitHostPort_host := host_of;
     IPNet := Z * Z;
     IPNet_Contains := mask_contains;
     ParseCIDR := fun _ => None;
     time_Parse := fun layout s =>
       if (layout =? RFC3339)%string && (s =? "2024-01-01T00:00:00Z")%string
       then Some lock_instant else None;
     json_Unmarshal := fun _ => None;
     strings_TrimSpace := fun s => s;
     strings_Contains := fun _ _ => false;
     strings_Split := fun s _ => [s] |}.

Definition example_sql_broken : SqlLib :=
  {| DB := unit;
     sql_Open := fun _ _ => inl tt;
     sql_ErrNoRows := errorsNew "sql: no rows in result set";
     db_Query := fun _ _ username =>
       inl {| rows_Columns := rows_Columns (example_rows username);
              rows_Scan := rows_Scan (example_rows username);
              rows_Err := Some (errorsNew "connection reset") |};
     db_Exec := fun _ _ _ _ => inr (errorsNew "connection reset");
     time_ParseDuration := fun _ => None |}.

(** A postgres database configured with no parameter, and the handler
    [createDbUserHandler] builds for it. *)
Definition postgres_config : DbConfig := example_config "postgres" ∅.

Definition postgres_handler : Db.dbUserHandler :=
  {| Db.querySQL := "SELECT * FROM users WHERE username = $1";
     Db.lockSQL := "";
     Db.passwordName := "password";
     Db.blockIPList := "";
     Db.lockedFieldName := "";
     Db.lockedTimeExpires := 0;
     Db.lockedTimeLayout := "" |}.

(** The two databases as [sql.Open] returns them. *)
Definition example_db : @DB example_sql := tt.
Definition example_db_broken : @DB example_sql_broken := tt.

(** A request that carries a [X-Forwarded-For] header. *)
Definition forwarded_request (remote forwarded : string) : Request :=
  {| RemoteAddr := remote;
     Header_Get := fun key =>
       if (key =? "X-Forwarded-For")%string then forwarded else EmptyString |}.

(** A row with a lock column, for a handler that reads the column
    [locked_at]. *)
Definition lock_config : Db.dbUserHandler :=
  {| Db.querySQL := "SELECT * FROM users WHERE username = ?";
     Db.lockSQL := "UPDATE users SET locked_at = ? WHERE username = ?";
     Db.passwordName := "password";
     Db.blockIPList := "";
     Db.lockedFieldName := "locked_at";
     Db.lockedTimeExpires := 30 * Minute;
     Db.lockedTimeLayout := "" |}.

Definition carol_row : Row :=
  <[ "password"%string := VString "s3cret" ]>
    (<[ "locked_at"%string := VString "2024-01-01T00:00:00Z" ]> ∅).

(** * Properties *)

(** ** The range checker *)

Lemma ipRange_Contains_disjunction (r : ipRange) (ip b : IP) :
  To4 ip = Some b ->
  ipRange_Contains r ip = true <-> start r <= Uint32 b \/ Uint32 b <= end_ r.
Proof.
  intros Hb. unfold ipRange_Contains. rewrite Hb.
  rewrite orb_true_iff, !Z.leb_le. reflexivity.
Qed.

Lemma ipRange_Contains_ordered (r : ipRange) (ip b : IP) :
  To4 ip = Some b -> start r <= end_ r -> ipRange_Contains r ip = true.
Proof.
  intros Hb Hle. apply (ipRange_Contains_disjunction r ip b Hb). lia.
Qed.

(** C1, the code at an address outside the range.  The range 10.0.0.1 to
    10.0.0.5 is built by [IPRange] with ordinals 167772161 and 167772165;
    the address 192.168.0.1 has ordinal 3232235521, above both, and
    [Contains] returns [true] for it: the test is a disjunction of the two
    bounds where the range needs their conjunction.  The same address is
    also contained in the range with the two ends exchanged, whose start is
    above its end. *)
Theorem ipRange_Contains_outside_range :
  IPRange [10; 0; 0; 1] [10; 0; 0; 5]
    = inl {| start := 167772161; end_ := 167772165 |} /\
  To4 [192; 168; 0; 1] = Some [192; 168; 0; 1] /\
  Uint32 [192; 168; 0; 1] = 3232235521 /\
  ~ (167772161 <= 3232235521 /\ 3232235521 <= 167772165) /\
  ipRange_Contains {| start := 167772161; end_ := 167772165 |}
                   [192; 168; 0; 1] = true /\
  ipRange_Contains {| start := 167772165; end_ := 167772161 |}
                   [192; 168; 0; 1] = true.
Proof.
  repeat split; try reflexivity. lia.
Qed.

Section Properties.
Context `{StdLib}.

(** ** The usability check *)

Lemma blocked_by_true (l : list IPChecker) (ip : IP) :
  blocked_by l ip = true <-> forall c, In c l -> Contains c ip = false.
Proof.
  induction l as [|c l IH]; simpl.
  - split; [intros _ c [] | reflexivity].
  - destruct (Contains c ip) eqn:Hc.
    + split; [discriminate|]. intros Hall.
      specialize (Hall c (or_introl eq_refl)). congruence.
    + rewrite IH. split.
      * intros Hall c' [<-|Hin]; [assumption | now apply Hall].
      * intros Hall c' Hin. apply Hall. now right.
Qed.

Lemma CanUse_address_empty (u : UserImpl) (currentAddr : string) :
  blockIPList u = [] -> CanUse_address u currentAddr = None.
Proof. intros Hl. unfold CanUse_address. now rewrite Hl. Qed.

Lemma CanUse_lock_cases (u : UserImpl) (now : Time) :
  CanUse_lock u now = (true, None) \/ CanUse_lock u now = (false, Some ErrUserLocked).
Proof.
  unfold CanUse_lock.
  destruct (IsZero (lockedAt u)); simpl; [now left|].
  destruct (lockedTimeExpires u =? 0); [now right|].
  destruct (Before now _); [now right | now left].
Qed.

Lemma CanUse_lock_true (u : UserImpl) (now : Time) :
  CanUse_lock u now = (true, None) <->
  lockedAt u = 0 \/
  (lockedTimeExpires u <> 0 /\ lockedAt u + lockedTimeExpires u <= now).
Proof.
  unfold CanUse_lock, IsZero, Before, Add.
  destruct (Z.eqb_spec (lockedAt u) 0) as [Hz|Hz]; simpl.
  - split; [now left | reflexivity].
  - destruct (Z.eqb_spec (lockedTimeExpires u) 0) as [He|He].
    + split; [discriminate | intros [?|[? _]]; contradiction].
    + destruct (Z.ltb_spec now (lockedAt u + lockedTimeExpires u)).
      * split; [discriminate | intros [?|[_ ?]]; [contradiction | lia]].
      * split; [intros _; right; split; [assumption | lia] | reflexivity].
Qed.

Lemma IsValid_CanUse (u : UserImpl) (req : Request) (now : Time) :
  IsValid u (RealIP req) now = CanUse u req now.
Proof. reflexivity. Qed.

(** The results of the usability check: success, or a failure with one of
    its three errors. *)
Lemma IsValid_results (u : UserImpl) (address : string) (now : Time) :
  IsValid u address now = (true, None) \/
  exists e,
    IsValid u address now = (false, Some e) /\
    (e = ErrUserIPBlocked \/ e = ErrUserLocked \/
     e = errorsNew ("client address is invalid - '" +:+ address +:+ "'")).
Proof.
  unfold IsValid, CanUse_address.
  destruct (negb _).
  - destruct (ParseIP address) as [ip|].
    + destruct (blocked_by _ ip).
      * right. exists ErrUserIPBlocked. auto.
      * destruct (CanUse_lock_cases u now) as [-> | ->]; [now left|].
        right. exists ErrUserLocked. auto.
    + right. eexists. split; [reflexivity|]. auto.
  - destruct (CanUse_lock_cases u now) as [-> | ->]; [now left|].
    right. exists ErrUserLocked. auto.
Qed.

Lemma IsValid_not_inused (u : UserImpl) (address : string) (now : Time) :
  IsValid u address now = (true, None) \/
  exists e,
    IsValid u address now = (false, Some e) /\ e <> errorsNew "user is inused".
Proof.
  destruct (IsValid_results u address now) as [Hr | (e & Hr & He)];
    [now left|].
  right. exists e. split; [assumption|].
  destruct He as [-> | [-> | ->]]; discriminate.
Qed.

(** C2, as the code has it.  For a user record with [lockedAt] set that
    passes the address check, [CanUse] fails with [ErrUserLocked] when
    [lockedTimeExpires] is zero, and with the same [ErrUserLocked] when it
    is not zero and the current time is before
    [lockedAt + lockedTimeExpires]: there is one lock error, not a
    permanent and a temporary one. *)
Theorem CanUse_locked_one_kind (u : UserImpl) (req : Request) (now : Time) :
  lockedAt u <> 0 ->
  CanUse_address u (RealIP req) = None ->
  lockedTimeExpires u = 0 \/
    (lockedTimeExpires u <> 0 /\ now < lockedAt u + lockedTimeExpires u) ->
  CanUse u req now = (false, Some ErrUserLocked).
Proof.
  intros Hset Hip Hcase. unfold CanUse. rewrite Hip.
  unfold CanUse_lock, IsZero, Before, Add.
  destruct (Z.eqb_spec (lockedAt u) 0) as [|_]; [contradiction|]. simpl.
  destruct Hcase as [-> | [Hne Hlt]]; [reflexivity|].
  destruct (Z.eqb_spec (lockedTimeExpires u) 0); [reflexivity|].
  destruct (Z.ltb_spec now (lockedAt u + lockedTimeExpires u)); [reflexivity | lia].
Qed.

(** C4, as the code has it.  For a user record with [lockedAt] set and
    [lockedTimeExpires > 0], [CanUse] succeeds if and only if the address
    check passes and the current time is at or after
    [lockedAt + lockedTimeExpires]; with [lockedTimeExpires] zero it does not
    succeed at any current time. *)
Theorem CanUse_lock_boundary (u : UserImpl) (req : Request) (now : Time) :
  lockedAt u <> 0 ->
  (0 < lockedTimeExpires u ->
     (CanUse u req now = (true, None) <->
      CanUse_address u (RealIP req) = None /\
      lockedAt u + lockedTimeExpires u <= now)) /\
  (lockedTimeExpires u = 0 ->
     fst (CanUse u req now) = false /\ CanUse u req now <> (true, None)).
Proof.
  intros Hset. split.
  - intros Hpos. unfold CanUse.
    destruct (CanUse_address u (RealIP req)) as [e|].
    + split; [discriminate | intros [? _]; discriminate].
    + rewrite CanUse_lock_true. split.
      * intros [?|[_ ?]]; [contradiction | now split].
      * intros [_ ?]. right. split; [lia | assumption].
  - intros Hzero. unfold CanUse.
    destruct (CanUse_address u (RealIP req)) as [e|].
    + split; [reflexivity | discriminate].
    + unfold CanUse_lock, IsZero.
      destruct (Z.eqb_spec (lockedAt u) 0) as [|_]; [contradiction|].
      rewrite Hzero. simpl. split; [reflexivity | discriminate].
Qed.

(** X30.  The address check of [CanUse] in terms of the [Contains] method
    of the entries.  With an empty block list it never fails, whatever the
    caller address: [CanUse] returns what the lock check returns, success
    or [ErrUserLocked].  With a block list that is not empty, [CanUse] fails
    with [ErrUserIPBlocked] exactly when the caller address parses and the
    [Contains] method of every entry returns [false] for it. *)
Theorem CanUse_block_list (u : UserImpl) (req : Request) (now : Time) :
  (blockIPList u = [] ->
     (forall currentAddr, CanUse_address u currentAddr = None) /\
     CanUse u req now = CanUse_lock u now /\
     (CanUse u req now = (true, None) \/
      CanUse u req now = (false, Some ErrUserLocked))) /\
  (blockIPList u <> [] ->
     (CanUse u req now = (false, Some ErrUserIPBlocked) <->
      exists ip, ParseIP (RealIP req) = Some ip /\
                 forall c, In c (blockIPList u) -> Contains c ip = false)).
Proof.
  split.
  - intros Hl.
    assert (Hno : forall a, CanUse_address u a = None)
      by (intros a; now apply CanUse_address_empty).
    split; [exact Hno|].
    unfold CanUse. rewrite Hno. split; [reflexivity | apply CanUse_lock_cases].
  - intros Hl. unfold CanUse, CanUse_address.
    destruct (blockIPList u) as [|c0 l] eqn:El; [contradiction|].
    cbn [length Nat.eqb negb].
    destruct (ParseIP (RealIP req)) as [ip|].
    + destruct (blocked_by (c0 :: l) ip) eqn:Hb.
      * split; [|reflexivity]. intros _. exists ip. split; [reflexivity|].
        now apply blocked_by_true.
      * split.
        -- intros Hr. destruct (CanUse_lock_cases u now) as [E|E];
             rewrite E in Hr; discriminate.
        -- intros (ip' & Hip & Hall). injection Hip as <-.
           apply blocked_by_true in Hall. congruence.
    + split; [discriminate | intros (ip & Hip & _); discriminate].
Qed.

(** ** The authentication handler *)

Lemma Auth_lookup (ah : userAuthenticationHandler)
    (address username password : string) (now : Time) :
  username <> ""%string ->
  fst (Auth ah address username password now) = [CallRead username address].
Proof.
  intros Hu. unfold Auth.
  destruct (String.eqb_spec username "") as [|_]; [contradiction|].
  unfold bind, call_Read, ret.
  destruct (Read (userHandler ah) username address) as [users [e|]];
    [reflexivity|].
  destruct users as [|user [|user' users]]; try reflexivity.
  destruct (User_IsValid user address now) as [ok [e|]]; [reflexivity|].
  destruct ok; [|reflexivity]. cbn [negb].
  destruct (User_Password user =? "")%string; [reflexivity|].
  destruct (Verify _ _ _ _) as [[]|]; reflexivity.
Qed.

(** What [Auth] returns once the lookup gave the one record [user]. *)
Lemma Auth_single (ah : userAuthenticationHandler) (user : User)
    (address username password : string) (now : Time) :
  username <> ""%string ->
  Read (userHandler ah) username address = ([user], None) ->
  snd (Auth ah address username password now) =
  match User_IsValid user address now with
  | (_, Some e) => (None, Some e)
  | (false, None) => (None, Some (errorsNew "user is inused"))
  | (true, None) =>
      if (User_Password user =? "")%string then (None, Some ErrPasswordEmpty)
      else
        match Verify (signingMethod ah) password (User_Password user)
                     (secretKey ah) with
        | Some ErrSignatureInvalid => (None, Some ErrPasswordNotMatch)
        | Some e => (None, Some e)
        | None => (Some (User_Data user), None)
        end
  end.
Proof.
  intros Hu Hread. unfold Auth.
  destruct (String.eqb_spec username "") as [|_]; [contradiction|].
  unfold bind, call_Read, ret. rewrite Hread.
  destruct (User_IsValid user address now) as [ok [e|]];
    [destruct ok; reflexivity|].
  destruct ok; [|reflexivity]. cbn [negb].
  destruct (User_Password user =? "")%string; [reflexivity|].
  destruct (Verify _ _ _ _) as [[]|]; reflexivity.
Qed.

(** C3, as the code has it.  For a user with [lockedAt] one hour before the
    current time and [lockedTimeExpires] of 30 minutes, with no IP
    restriction and a single matching row, the lock ended half an hour ago:
    the usability check succeeds and [Auth] goes on to the password, so that
    it returns [ErrPasswordEmpty] for an empty stored secret,
    [ErrPasswordNotMatch] on a mismatch, another verification error
    unchanged, and the data of the record on a match. *)
Theorem Auth_lock_expired (ah : userAuthenticationHandler) (u : UserImpl)
    (address username password : string) (now : Time) :
  username <> ""%string ->
  Read (userHandler ah) username address = ([as_User u], None) ->
  blockIPList u = [] ->
  lockedAt u = now - Hour ->
  lockedTimeExpires u = 30 * Minute ->
  (forall req, CanUse u req now = (true, None)) /\
  IsValid u address now = (true, None) /\
  snd (Auth ah address username password now) =
    if (Password u =? "")%string then (None, Some ErrPasswordEmpty)
    else
      match Verify (signingMethod ah) password (Password u) (secretKey ah) with
      | Some ErrSignatureInvalid => (None, Some ErrPasswordNotMatch)
      | Some e => (None, Some e)
      | None => (Some (Data u), None)
      end.
Proof.
  intros Hu Hread Hl Hat Hexp.
  assert (Hlock : CanUse_lock u now = (true, None)).
  { apply CanUse_lock_true.
    destruct (Z.eq_dec (lockedAt u) 0) as [Hz|Hz]; [now left|].
    right. rewrite Hat, Hexp. unfold Hour, Minute, Second, Nanosecond. lia. }
  assert (Hvalid : forall a, IsValid u a now = (true, None)).
  { intros a. unfold IsValid. now rewrite CanUse_address_empty. }
  split; [|split].
  - intros req. rewrite <- IsValid_CanUse. apply Hvalid.
  - apply Hvalid.
  - rewrite (Auth_single ah (as_User u)) by assumption.
    cbn [as_User User_IsValid User_Password User_Data].
    now rewrite Hvalid.
Qed.

(** C6.  Once the lookup is made (the username is not empty) and succeeds,
    [Auth] returns [ErrUserNotFound] when it gave no record and
    [ErrMutiUsers], the ambiguous-user error, when it gave more than one,
    whatever the address, the password, the signing method and the
    records. *)
Theorem Auth_zero_or_many (ah : userAuthenticationHandler)
    (address username password : string) (now : Time) (users : list User) :
  username <> ""%string ->
  Read (userHandler ah) username address = (users, None) ->
  (users = [] ->
     snd (Auth ah address username password now) = (None, Some ErrUserNotFound)) /\
  ((1 < length users)%nat ->
     snd (Auth ah address username password now) = (None, Some ErrMutiUsers)).
Proof.
  intros Hu Hread. unfold Auth.
  destruct (String.eqb_spec username "") as [|_]; [contradiction|].
  unfold bind, call_Read, ret. rewrite Hread. split.
  - intros ->. reflexivity.
  - intros Hlen. destruct users as [|user [|user' rest]]; simpl in Hlen; try lia.
    reflexivity.
Qed.

(** C7.  With an empty username [Auth] returns [ErrUsernameEmpty] and makes
    no call to the user handler, for every handler, address and password;
    it is the only username for which the handler is not called. *)
Theorem Auth_username_empty (ah : userAuthenticationHandler)
    (address password : string) (now : Time) :
  Auth ah address "" password now = ([], (None, Some ErrUsernameEmpty)) /\
  (forall username,
     fst (Auth ah address username password now) = [] -> username = ""%string).
Proof.
  split; [reflexivity|].
  intros username Hnone.
  destruct (String.eqb_spec username "") as [|Hne]; [assumption|].
  rewrite Auth_lookup in Hnone by assumption. discriminate.
Qed.

(** C9.  [CanUse] never returns [(false, nil)]: a [false] comes with an
    error and a [true] with none.  So the branch of [Auth] that returns
    [errors.New("user is inused")] is not taken for the records of this
    package: unless the user handler or the signing method hands that very
    error to [Auth], [Auth] does not return it. *)
Theorem CanUse_never_false_nil :
  (forall (u : UserImpl) (req : Request) (now : Time),
     CanUse u req now <> (false, None) /\
     (fst (CanUse u req now) = false -> snd (CanUse u req now) <> None) /\
     (fst (CanUse u req now) = true -> snd (CanUse u req now) = None)) /\
  (forall (ah : userAuthenticationHandler) (us : list UserImpl)
          (err : option error) (address username password : string)
          (now : Time),
     Read (userHandler ah) username address = (map as_User us, err) ->
     err <> Some (errorsNew "user is inused") ->
     (forall expected,
        Verify (signingMethod ah) password expected (secretKey ah)
          <> Some (errorsNew "user is inused")) ->
     snd (snd (Auth ah address username password now))
       <> Some (errorsNew "user is inused")).
Proof.
  split.
  - intros u req now. rewrite <- IsValid_CanUse.
    destruct (IsValid_results u (RealIP req) now) as [-> | (e & -> & _)];
      repeat split; simpl; congruence.
  - intros ah us err address username password now Hread Herr Hver.
    unfold Auth.
    destruct (String.eqb_spec username "") as [|_]; [simpl; congruence|].
    unfold bind, call_Read, ret. rewrite Hread.
    destruct err as [e|]; [simpl; congruence|].
    destruct us as [|u [|u' us]]; try (simpl; congruence).
    cbn [map as_User User_IsValid User_Password User_Data].
    destruct (IsValid_not_inused u address now) as [-> | (e & -> & He)];
      [|simpl; congruence].
    cbn [negb]. destruct (Password u =? "")%string; [simpl; congruence|].
    specialize (Hver (Password u)).
    destruct (Verify _ _ _ _) as [[]|]; simpl; congruence.
Qed.

(** C10.  When [Auth] succeeds on the record that [toUser] built from a
    row, the claims it returns are that row, whole: no key is taken out, and
    the stored password is still there under the configured password
    column. *)
Theorem Auth_returns_whole_row (ah : userAuthenticationHandler)
    (h : Db.dbUserHandler) (row claims : Row) (u : UserImpl)
    (address username password : string) (now : Time) :
  toUser h username row = inl u ->
  Read (userHandler ah) username address = ([as_User u], None) ->
  snd (Auth ah address username password now) = (Some claims, None) ->
  claims = row /\
  claims !! Db.passwordName h = Some (VString (Password u)) /\
  Password u <> ""%string.
Proof.
  intros Hto Hread Hauth.
  assert (Hu : username <> ""%string).
  { intros ->. discriminate Hauth. }
  rewrite (Auth_single ah (as_User u)) in Hauth by assumption.
  cbn [as_User User_IsValid User_Password User_Data] in Hauth.
  destruct (IsValid u address now) as [[] [e|]]; try discriminate.
  destruct (String.eqb_spec (Password u) "") as [|Hpw]; [discriminate|].
  destruct (Verify _ _ _ _) as [[]|]; try discriminate.
  injection Hauth as <-.
  unfold toUser, and_then in Hto.
  destruct (index_map row (Db.passwordName h)) as [|s| | | | |] eqn:Hp;
    try discriminate;
    (destruct (match index_map row (Db.lockedFieldName h) with VNil => _ | _ => _ end)
       as [t|]; [|discriminate]);
    (destruct (match index_map row (Db.blockIPList h) with VNil => _ | _ => _ end)
       as [l|]; [|discriminate]);
    injection Hto as <-; unfold Password, Data in *; simpl in *.
  - contradiction.
  - split; [reflexivity|]. split; [|assumption].
    unfold index_map in Hp. destruct (row !! Db.passwordName h) as [v|];
      simpl in Hp; [now subst | discriminate].
Qed.

End Properties.

(** ** The properties at concrete records *)

(** C2, where the claim fails.  A record locked for good and a record
    locked for 30 minutes, both asked 10 minutes after the lock: no two
    different error kinds are returned for them, as both get
    [ErrUserLocked].  And a locked record whose block list does not hold the
    caller address fails with [ErrUserIPBlocked], before the lock is looked
    at. *)
Lemma CanUse_lock_kinds_coincide :
  ~ (exists PermanentlyLocked TemporarilyLocked : error,
       PermanentlyLocked <> TemporarilyLocked /\
       CanUse (locked_user 0 []) (request_from "192.168.0.1:4000")
              (lock_instant + 10 * Minute)
         = (false, Some PermanentlyLocked) /\
       CanUse (locked_user (30 * Minute) []) (request_from "192.168.0.1:4000")
              (lock_instant + 10 * Minute)
         = (false, Some TemporarilyLocked)) /\
  CanUse (locked_user 0 [net10]) (request_from "192.168.0.1:4000")
         (lock_instant + 10 * Minute)
    = (false, Some ErrUserIPBlocked).
Proof.
  split; [|reflexivity].
  intros (e1 & e2 & Hne & H1 & H2).
  vm_compute in H1, H2. congruence.
Qed.

(** A record locked for 30 minutes, asked 10 minutes after the lock. *)
Lemma CanUse_locked_one_kind_witness :
  lockedAt (locked_user (30 * Minute) []) <> 0 /\
  CanUse (locked_user (30 * Minute) []) (request_from "192.168.0.1:4000")
         (lock_instant + 10 * Minute)
    = (false, Some ErrUserLocked).
Proof.
  split; [discriminate|].
  apply CanUse_locked_one_kind;
    [discriminate | reflexivity | right; split; [discriminate | reflexivity]].
Defined.

(** C3, where the claim fails.  The record is locked at [lock_instant] for
    30 minutes and [Auth] is called one hour later, with no block list and
    the right password: the usability check succeeds and [Auth] returns the
    data of the record, not a lock failure. *)
Lemma Auth_carol_not_locked :
  lockedAt (locked_user (30 * Minute) []) = (lock_instant + Hour) - Hour /\
  CanUse (locked_user (30 * Minute) []) (request_from "192.168.0.1:4000")
         (lock_instant + Hour)
    = (true, None) /\
  Auth (handler_of [as_User (locked_user (30 * Minute) [])])
       "192.168.0.1" "carol" "s3cret" (lock_instant + Hour)
    = ([CallRead "carol" "192.168.0.1"],
       (Some (Data (locked_user (30 * Minute) [])), None)).
Proof. repeat split. Qed.

(** The same call with a wrong password. *)
Lemma Auth_lock_expired_witness :
  snd (Auth (handler_of [as_User (locked_user (30 * Minute) [])])
            "192.168.0.1" "carol" "wrong" (lock_instant + Hour))
    = (None, Some ErrPasswordNotMatch).
Proof.
  exact (proj2 (proj2
    (Auth_lock_expired (handler_of [as_User (locked_user (30 * Minute) [])])
       (locked_user (30 * Minute) []) "192.168.0.1" "carol" "wrong"
       (lock_instant + Hour)
       ltac:(discriminate) eq_refl eq_refl eq_refl eq_refl))).
Defined.

(** C4, where the claim fails.  The record is locked for 30 minutes and the
    lock has run out an hour later, but its block list holds only the
    network 10.0.0.0/8 and the caller is 192.168.0.1: the check does not
    succeed although the current time is past [lockedAt + lockedTimeExpires]. *)
Lemma CanUse_blocked_after_expiry :
  lockedAt (locked_user (30 * Minute) [net10]) <> 0 /\
  0 < lockedTimeExpires (locked_user (30 * Minute) [net10]) /\
  lockedAt (locked_user (30 * Minute) [net10])
    + lockedTimeExpires (locked_user (30 * Minute) [net10])
    <= lock_instant + Hour /\
  CanUse (locked_user (30 * Minute) [net10]) (request_from "192.168.0.1:4000")
         (lock_instant + Hour)
    = (false, Some ErrUserIPBlocked).
Proof.
  repeat split; discriminate.
Qed.

(** The same record and time for a caller inside 10.0.0.0/8. *)
Lemma CanUse_lock_boundary_witness :
  CanUse (locked_user (30 * Minute) [net10]) (request_from "10.1.2.3:4000")
         (lock_instant + Hour)
    = (true, None).
Proof.
  apply (proj1 (CanUse_lock_boundary (locked_user (30 * Minute) [net10])
                  (request_from "10.1.2.3:4000") (lock_instant + Hour)
                  ltac:(discriminate))).
  - reflexivity.
  - split; [reflexivity | discriminate].
Defined.

(** C5, the code at a caller outside the block list.  The block-list
    column with the one text 10.0.0.1 gives, through the loop of [toUser],
    the entry that [IPRangeWith] builds for that address, the range from
    167772161 to 167772161.  The caller 192.168.0.1 parses to the ordinal
    3232235521, which is not in that range, yet the [Contains] method of the
    entry returns [true] for it and [CanUse] lets the request through
    instead of failing with [ErrUserIPBlocked]: the entry tests one bound
    only, the disjunction of [ipRange.Contains]. *)
Theorem CanUse_caller_outside_block_list :
  toUser_blockIPList default_config ["10.0.0.1"%string] []
    = inl [RangeChecker {| start := 167772161; end_ := 167772161 |}] /\
  ParseIP "192.168.0.1"
    = Some [0; 0; 0; 0; 0; 0; 0; 0; 0; 0; 255; 255; 192; 168; 0; 1] /\
  To4 [0; 0; 0; 0; 0; 0; 0; 0; 0; 0; 255; 255; 192; 168; 0; 1]
    = Some [192; 168; 0; 1] /\
  Uint32 [192; 168; 0; 1] = 3232235521 /\
  ~ (167772161 <= 3232235521 /\ 3232235521 <= 167772161) /\
  Contains (RangeChecker {| start := 167772161; end_ := 167772161 |})
           [0; 0; 0; 0; 0; 0; 0; 0; 0; 0; 255; 255; 192; 168; 0; 1] = true /\
  CanUse {| name := "carol"; password := "s3cret"; lockedAt := 0;
            lockedTimeExpires := 0;
            blockIPList :=
              [RangeChecker {| start := 167772161; end_ := 167772161 |}];
            data := ∅ |}
         (request_from "192.168.0.1:4000") lock_instant
    = (true, None).
Proof.
  repeat split; try reflexivity. lia.
Qed.

(** A block list holding 10.0.0.0/8 and the caller 192.168.0.1. *)
Lemma CanUse_block_list_witness :
  CanUse (locked_user 0 [net10]) (request_from "192.168.0.1:4000") lock_instant
    = (false, Some ErrUserIPBlocked).
Proof.
  apply (proj2 (CanUse_block_list (locked_user 0 [net10])
                  (request_from "192.168.0.1:4000") lock_instant)).
  - discriminate.
  - exists [0; 0; 0; 0; 0; 0; 0; 0; 0; 0; 255; 255; 192; 168; 0; 1].
    split; [reflexivity|].
    intros c [<- | []]. reflexivity.
Defined.

(** A lookup that gives two rows. *)
Lemma Auth_zero_or_many_witness :
  snd (Auth (handler_of [as_User alice; as_User alice])
            "192.168.0.1" "bob" "s3cret" lock_instant)
    = (None, Some ErrMutiUsers).
Proof.
  apply (proj2 (Auth_zero_or_many (handler_of [as_User alice; as_User alice])
                  "192.168.0.1" "bob" "s3cret" lock_instant
                  [as_User alice; as_User alice]
                  ltac:(discriminate) eq_refl)).
  simpl. lia.
Defined.

(** A record with a block list and a caller address that does not parse. *)
Lemma CanUse_never_false_nil_witness :
  snd (snd (Auth (handler_of [as_User (locked_user 0 [net10])])
                 "not an address" "carol" "s3cret" lock_instant))
    <> Some (errorsNew "user is inused").
Proof.
  apply (proj2 CanUse_never_false_nil
           (handler_of [as_User (locked_user 0 [net10])])
           [locked_user 0 [net10]] None).
  - reflexivity.
  - discriminate.
  - intros expected.
    change (Verify (signingMethod (handler_of [as_User (locked_user 0 [net10])]))
                   "s3cret" expected
                   (secretKey (handler_of [as_User (locked_user 0 [net10])])))
      with (if ("s3cret" =? expected)%string
            then None else Some ErrSignatureInvalid).
    destruct ("s3cret" =? expected)%string; discriminate.
Defined.

(** The row of alice, read with the default configuration. *)
Lemma Auth_returns_whole_row_witness :
  toUser default_config "alice" alice_row = inl alice /\
  snd (Auth (handler_of [as_User alice]) "192.168.0.1" "alice" "s3cret"
            lock_instant)
    = (Some alice_row, None) /\
  alice_row !! "password"%string = Some (VString "s3cret").
Proof.
  split; [reflexivity|]. split; [reflexivity|].
  exact (proj1 (proj2
    (Auth_returns_whole_row (handler_of [as_User alice]) default_config
       alice_row alice_row alice "192.168.0.1" "alice" "s3cret" lock_instant
       eq_refl eq_refl eq_refl))).
Defined.

(** ** Placeholder rewriting: the loop against the specification *)

Section Rewrite.
Local Open Scope string_scope.
Local Arguments String.append !_ _ : simpl nomatch.

Lemma append_empty_r (s : string) : s ++ "" = s.
Proof. induction s as [|c s IH]; simpl; [reflexivity | now rewrite IH]. Qed.

Lemma append_assoc (a b c : string) : (a ++ b) ++ c = a ++ (b ++ c).
Proof. induction a as [|x a IH]; simpl; [reflexivity | now rewrite IH]. Qed.

Lemma length_append (a b : string) :
  String.length (a ++ b) = (String.length a + String.length b)%nat.
Proof. induction a as [|x a IH]; simpl; [reflexivity | now rewrite IH]. Qed.

Lemma substring_prefix (a b : string) : substring 0 (String.length a) (a ++ b) = a.
Proof.
  induction a as [|x a IH]; simpl.
  - destruct b; reflexivity.
  - now rewrite IH.
Qed.

Lemma substring_skip (a b : string) (k n : nat) :
  substring (String.length a + k) n (a ++ b) = substring k n b.
Proof. induction a as [|x a IH]; simpl; [reflexivity | exact IH]. Qed.

Lemma substring_all (s : string) : substring 0 (String.length s) s = s.
Proof.
  induction s as [|c s IH]; simpl; [reflexivity | now rewrite IH].
Qed.

(** A string without placeholder is one on which [Index_qmark] finds none. *)
Lemma Index_qmark_ge (s : string) : (-1 <= Index_qmark s)%Z.
Proof.
  induction s as [|c s IH]; simpl; [lia|].
  destruct (Ascii.eqb c "?"); [lia|].
  destruct (Index_qmark s =? -1)%Z; lia.
Qed.

Lemma Index_qmark_split (s : string) :
  Index_qmark s = (-1)%Z \/
  exists pre post,
    s = pre ++ String "?" post /\ Index_qmark pre = (-1)%Z /\
    Index_qmark s = len pre.
Proof.
  induction s as [|c s IH]; simpl; [now left|].
  destruct (Ascii.eqb_spec c "?") as [->|Hc].
  - right. exists "", s. repeat split.
  - destruct IH as [IH | (pre & post & -> & Hpre & Hp)].
    + left. now rewrite IH.
    + right. exists (String c pre), post. simpl.
      destruct (Ascii.eqb_spec c "?"); [contradiction|].
      rewrite Hpre, Hp. simpl. repeat split.
      pose proof (Index_qmark_ge pre). unfold len in *.
      cbn [String.length].
      destruct (Z.eqb_spec (Z.of_nat (String.length pre)) (-1)); lia.
Qed.

Lemma rewrite_from_no_qmark (pre x : string) (n : Z) :
  Index_qmark pre = (-1)%Z -> rewrite_from n (pre ++ x) = pre ++ rewrite_from n x.
Proof.
  induction pre as [|c pre IH]; simpl; [reflexivity|].
  destruct (Ascii.eqb c "?"); [discriminate|].
  destruct (Z.eqb_spec (Index_qmark pre) (-1)) as [Hp|Hp].
  - intros _. now rewrite IH.
  - intros Hq. pose proof (Index_qmark_ge pre). lia.
Qed.

Lemma slice_to_prefix (pre x : string) : slice_to (pre ++ x) (len pre) = pre.
Proof.
  unfold slice_to, len. rewrite Nat2Z.id. apply substring_prefix.
Qed.

Lemma slice_from_skip (pre x : string) (k : nat) :
  (k <= String.length x)%nat ->
  slice_from (pre ++ x) (len pre + Z.of_nat k) =
  substring k (String.length x - k) x.
Proof.
  intros Hk. unfold slice_from, len.
  rewrite <- Nat2Z.inj_add, Nat2Z.id, length_append, substring_skip.
  f_equal. lia.
Qed.

Lemma slice_skip (pre x : string) (k : Z) :
  (0 <= k)%Z ->
  slice (pre ++ x) (len pre) (len pre + k) = substring 0 (Z.to_nat k) x.
Proof.
  intros Hk. unfold slice, len.
  rewrite Nat2Z.id, Z2Nat.inj_add, Nat2Z.id by lia.
  replace (String.length pre + Z.to_nat k - String.length pre)%nat
    with (Z.to_nat k) by lia.
  rewrite <- (Nat.add_0_r (String.length pre)) at 1. apply substring_skip.
Qed.

Lemma ReplacePlaceholders_loop_spec (fuel : nat) :
  forall (sql : string) (i : Z) (buf : string),
    (String.length sql < fuel)%nat ->
    ReplacePlaceholders_loop fuel sql i buf = Some (buf ++ rewrite_from i sql).
Proof.
  induction fuel as [|fuel IH]; intros sql i buf Hlen; [lia|].
  simpl.
  destruct (Index_qmark_split sql) as [Hnone | (pre & post & -> & Hpre & Hp)].
  - rewrite Hnone. simpl.
    rewrite <- (append_empty_r sql) at 2.
    rewrite rewrite_from_no_qmark by assumption.
    simpl. now rewrite append_empty_r.
  - rewrite Hp.
    assert (Hne : (len pre =? -1)%Z = false) by (apply Z.eqb_neq; unfold len; lia).
    rewrite Hne.
    pose proof (slice_from_skip pre (String "?" post) 0 ltac:(lia)) as H0.
    rewrite Z.add_0_r in H0. rewrite H0. clear H0.
    rewrite Nat.sub_0_r, substring_all.
    rewrite (slice_skip pre (String "?" post) 2) by lia.
    rewrite slice_to_prefix, rewrite_from_no_qmark by assumption.
    rewrite length_append in Hlen. simpl in Hlen.
    destruct post as [|c post].
    + (* the placeholder is the last byte *)
      simpl.
      pose proof (slice_from_skip pre (String "?" "") 1 ltac:(simpl; lia)) as H1.
      simpl in H1. change (Z.of_nat 1) with 1%Z in H1. rewrite H1.
      rewrite IH by (simpl; lia).
      simpl. now rewrite append_empty_r, append_assoc.
    + change (len (String "?" (String c post)) >? 1)%Z
        with (Z.of_nat (S (S (String.length post))) >? 1)%Z.
      assert (Hgt : (Z.of_nat (S (S (String.length post))) >? 1)%Z = true)
        by (apply Z.gtb_lt; lia).
      rewrite Hgt. clear Hgt.
      change (substring 0 (Z.to_nat 2) (String "?" (String c post)))
        with (String "?" (String c (substring 0 0 post))).
      assert (H00 : substring 0 0 post = "") by (destruct post; reflexivity).
      rewrite H00. clear H00.
      simpl andb.
      destruct (Ascii.eqb_spec c "?") as [->|Hc].
      * (* a doubled placeholder *)
        assert (H1 : (len (String "?" (String "?" post)) =? 1)%Z = false)
          by (apply Z.eqb_neq; unfold len; simpl String.length; lia).
        rewrite H1. clear H1.
        pose proof (slice_from_skip pre (String "?" (String "?" post)) 2
                      ltac:(simpl; lia)) as H2.
        change (Z.of_nat 2) with 2%Z in H2. rewrite H2. simpl substring.
        rewrite Nat.sub_0_r, substring_all.
        rewrite IH by (cbn [String.length] in Hlen; lia).
        simpl. rewrite !append_assoc. reflexivity.
      * (* a single placeholder *)
        pose proof (slice_from_skip pre (String "?" (String c post)) 1
                      ltac:(simpl; lia)) as H1.
        change (Z.of_nat 1) with 1%Z in H1. rewrite H1. simpl substring.
        rewrite substring_all.
        rewrite IH by (cbn [String.length] in *; lia).
        simpl rewrite_from.
        destruct (Ascii.eqb_spec c "?"); [contradiction|].
        rewrite !append_assoc. reflexivity.
Qed.

(** C8. [ReplacePlaceholders] returns, for every input, the rewriting of
    the specification: reading left to right, each single placeholder
    becomes [$1], [$2], ... in order, and each doubled placeholder becomes
    one literal placeholder and takes no number.  On
    ["WHERE x=? AND y=??"] the result is ["WHERE x=$1 AND y=?"]. *)
Theorem ReplacePlaceholders_rewrite_spec :
  ReplacePlaceholders "WHERE x=? AND y=??" = Some "WHERE x=$1 AND y=?" /\
  forall sql : string, ReplacePlaceholders sql = Some (rewrite_spec sql).
Proof.
  split; [reflexivity|].
  intros sql. unfold ReplacePlaceholders, rewrite_spec.
  rewrite ReplacePlaceholders_loop_spec by lia. reflexivity.
Qed.

End Rewrite.

(** * Further properties of the code *)

(** ** Ranges and addresses *)

Lemma lor_shiftl_add (lo hi n : Z) :
  0 <= n -> 0 <= lo < 2 ^ n -> Z.lor lo (Z.shiftl hi n) = lo + hi * 2 ^ n.
Proof.
  intros Hn Hlo.
  assert (Hand : Z.land lo (Z.shiftl hi n) = 0).
  { apply Z.bits_inj'. intros i Hi. rewrite Z.land_spec, Z.bits_0.
    destruct (Z.lt_ge_cases i n) as [Hlt|Hge].
    - rewrite Z.shiftl_spec_low by assumption. apply andb_false_r.
    - assert (Hb : Z.testbit lo i = false).
      { apply Z.testbit_false; [assumption|].
        rewrite Z.div_small; [reflexivity|].
        split; [lia|]. apply Z.lt_le_trans with (2 ^ n); [lia|].
        apply Z.pow_le_mono_r; lia. }
      now rewrite Hb. }
  rewrite <- Z.lxor_lor by assumption.
  rewrite <- Z.add_nocarry_lxor by assumption.
  now rewrite Z.shiftl_mul_pow2.
Qed.

Lemma Uint32_value (a b c d : Z) :
  is_byte a -> is_byte b -> is_byte c -> is_byte d ->
  Uint32 [a; b; c; d] = a * 2 ^ 24 + b * 2 ^ 16 + c * 2 ^ 8 + d.
Proof.
  unfold is_byte, Uint32. intros Ha Hb Hc Hd. cbn [nth].
  rewrite (lor_shiftl_add d c 8) by lia.
  rewrite (lor_shiftl_add _ b 16) by lia.
  rewrite (lor_shiftl_add _ a 24) by lia.
  lia.
Qed.

(** X1.  [IPRange] on two 4-byte addresses never fails, and the ends of
    the range it builds are the big-endian values of the addresses,
    [a * 2^24 + b * 2^16 + c * 2^8 + d], which fit 32 bits. *)
Theorem IPRange_ordinals (a b c d a' b' c' d' : Z) :
  is_byte a -> is_byte b -> is_byte c -> is_byte d ->
  is_byte a' -> is_byte b' -> is_byte c' -> is_byte d' ->
  exists r,
    IPRange [a; b; c; d] [a'; b'; c'; d'] = inl r /\
    start r = a * 2 ^ 24 + b * 2 ^ 16 + c * 2 ^ 8 + d /\
    end_ r = a' * 2 ^ 24 + b' * 2 ^ 16 + c' * 2 ^ 8 + d' /\
    0 <= start r < 2 ^ 32 /\ 0 <= end_ r < 2 ^ 32.
Proof.
  intros Ha Hb Hc Hd Ha' Hb' Hc' Hd'.
  eexists. split; [reflexivity|]. cbn [start end_].
  rewrite !Uint32_value by assumption.
  unfold is_byte in *. repeat split; lia.
Qed.

Lemma IPRange_ordinals_witness :
  exists r,
    IPRange [10; 0; 0; 1] [10; 0; 0; 5] = inl r /\
    start r = 10 * 2 ^ 24 + 0 * 2 ^ 16 + 0 * 2 ^ 8 + 1 /\
    end_ r = 10 * 2 ^ 24 + 0 * 2 ^ 16 + 0 * 2 ^ 8 + 5 /\
    0 <= start r < 2 ^ 32 /\ 0 <= end_ r < 2 ^ 32.
Proof.
  apply IPRange_ordinals; unfold is_byte; lia.
Defined.

(** An address that is not IPv4 is in no range, and an IPv4 address
    is treated alike in its 4-byte form and in its 16-byte form
    [::ffff:a.b.c.d]. *)
Theorem ipRange_Contains_forms (r : ipRange) :
  (forall ip, To4 ip = None -> ipRange_Contains r ip = false) /\
  (forall a b c d,
     ipRange_Contains r ([0; 0; 0; 0; 0; 0; 0; 0; 0; 0; 255; 255] ++ [a; b; c; d])
     = ipRange_Contains r [a; b; c; d]).
Proof.
  split.
  - intros ip Hip. unfold ipRange_Contains. now rewrite Hip.
  - intros a b c d. reflexivity.
Qed.

Section MoreProperties.
Context `{StdLib}.

(** X2.  A block-list entry made of one address ([IPRangeWith(s, s)])
    contains every IPv4 address, not only its own: its two ends are equal
    and [Contains] asks for one of the two bounds only. *)
Theorem IPRangeWith_single_contains_all (s : string) (r : ipRange) (ip b : IP) :
  IPRangeWith s s = inl r ->
  To4 ip = Some b ->
  Contains (RangeChecker r) ip = true.
Proof.
  intros Hr Hb. unfold IPRangeWith in Hr.
  destruct (ParseIP s) as [sip|]; [|discriminate].
  unfold IPRange in Hr. destruct (To4 sip) as [s4|]; [|discriminate].
  injection Hr as <-. cbn [Contains].
  apply (ipRange_Contains_ordered _ ip b Hb). cbn [start end_]. lia.
Qed.

(** ** The usability check *)

(** X3.  Once [CanUse] succeeds it succeeds at every later time, for the
    same record and request: a lock that has run out does not come back. *)
Theorem CanUse_stays_usable (u : UserImpl) (req : Request) (now later : Time) :
  CanUse u req now = (true, None) ->
  now <= later ->
  CanUse u req later = (true, None).
Proof.
  unfold CanUse. destruct (CanUse_address u (RealIP req)); [discriminate|].
  rewrite !CanUse_lock_true. intros [Hz | [Hne Hle]] Hlater; [now left|].
  right. split; [assumption | lia].
Qed.

(** X4.  A record whose [lockedAt] is the zero time is not locked, whatever
    its [lockedTimeExpires] and the current time: [CanUse] returns what the
    address check decides. *)
Theorem CanUse_not_locked (u : UserImpl) (req : Request) (now : Time) :
  lockedAt u = 0 ->
  CanUse u req now =
  match CanUse_address u (RealIP req) with
  | Some e => (false, Some e)
  | None => (true, None)
  end.
Proof.
  intros Hz. unfold CanUse. destruct (CanUse_address u (RealIP req)); [reflexivity|].
  apply CanUse_lock_true. now left.
Qed.

Lemma blocked_by_app (l l' : list IPChecker) (ip : IP) :
  blocked_by (l ++ l') ip = blocked_by l ip && blocked_by l' ip.
Proof.
  induction l as [|c l IH]; simpl; [reflexivity|].
  destruct (Contains c ip); [reflexivity | exact IH].
Qed.

Lemma blocked_by_Permutation (l l' : list IPChecker) (ip : IP) :
  Permutation l l' -> blocked_by l ip = blocked_by l' ip.
Proof.
  intros Hp.
  destruct (blocked_by l ip) eqn:E, (blocked_by l' ip) eqn:E'; try reflexivity.
  - rewrite blocked_by_true in E.
    assert (E2 : blocked_by l' ip = true).
    { apply blocked_by_true. intros c Hin. apply E.
      apply (Permutation_in c (Permutation_sym Hp) Hin). }
    congruence.
  - rewrite blocked_by_true in E'.
    assert (E2 : blocked_by l ip = true).
    { apply blocked_by_true. intros c Hin. apply E'.
      apply (Permutation_in c Hp Hin). }
    congruence.
Qed.

(** X5.  The block list is an allow-list that only grows: when a record
    with a block list that is not empty passes [CanUse], the record with
    more entries added to the list passes it too. *)
Theorem CanUse_more_entries (u u' : UserImpl) (more : list IPChecker)
    (req : Request) (now : Time) :
  blockIPList u <> [] ->
  blockIPList u' = blockIPList u ++ more ->
  lockedAt u' = lockedAt u ->
  lockedTimeExpires u' = lockedTimeExpires u ->
  CanUse u req now = (true, None) ->
  CanUse u' req now = (true, None).
Proof.
  intros Hne Hl Hat Hexp. unfold CanUse, CanUse_address, CanUse_lock.
  rewrite Hl, Hat, Hexp.
  destruct (blockIPList u) as [|c l]; [contradiction|].
  cbn [app length Nat.eqb negb].
  destruct (ParseIP (RealIP req)) as [ip|]; [|discriminate].
  change (c :: l ++ more) with ((c :: l) ++ more). rewrite blocked_by_app.
  destruct (blocked_by (c :: l) ip); [discriminate|]. cbn [andb]. trivial.
Qed.

(** X6.  The order of the entries of the block list does not matter to
    [CanUse]. *)
Theorem CanUse_entries_order (u u' : UserImpl) (req : Request) (now : Time) :
  Permutation (blockIPList u) (blockIPList u') ->
  lockedAt u' = lockedAt u ->
  lockedTimeExpires u' = lockedTimeExpires u ->
  CanUse u' req now = CanUse u req now.
Proof.
  intros Hp Hat Hexp. unfold CanUse, CanUse_address, CanUse_lock.
  rewrite Hat, Hexp, (Permutation_length Hp).
  destruct (negb _); [|reflexivity].
  destruct (ParseIP (RealIP req)) as [ip|]; [|reflexivity].
  now rewrite (blocked_by_Permutation _ _ ip Hp).
Qed.

(** X7.  When the request carries a [X-Forwarded-For] header, the caller
    address is the value of that header: the peer address and the
    [X-Real-IP] header have no part in what [CanUse] returns. *)
Theorem CanUse_forwarded_for (u : UserImpl) (req req' : Request) (now : Time) :
  Header_Get req HeaderXForwardedFor <> ""%string ->
  Header_Get req' HeaderXForwardedFor = Header_Get req HeaderXForwardedFor ->
  RealIP req = Header_Get req HeaderXForwardedFor /\
  CanUse u req' now = CanUse u req now.
Proof.
  intros Hne Heq.
  assert (Hreal : forall q, Header_Get q HeaderXForwardedFor
                            = Header_Get req HeaderXForwardedFor ->
                            RealIP q = Header_Get req HeaderXForwardedFor).
  { intros q Hq. unfold RealIP. rewrite Hq.
    destruct (String.eqb_spec (Header_Get req HeaderXForwardedFor) "");
      [contradiction | reflexivity]. }
  split; [now apply Hreal|].
  unfold CanUse. now rewrite (Hreal req' Heq), (Hreal req eq_refl).
Qed.

End MoreProperties.

Section MoreAuth.
Context `{StdLib}.

(** ** The authentication handler *)


(** X9.  [Auth] succeeds exactly when the username is not empty, the
    lookup gives one record and no error, the record passes [IsValid] for
    the caller address, its stored password is not empty and the signing
    method accepts the password against it; the claims are then the data of
    that record. *)
Theorem Auth_success_iff (ah : userAuthenticationHandler)
    (address username pw : string) (now : Time) (claims : Row) :
  snd (Auth ah address username pw now) = (Some claims, None) <->
  username <> ""%string /\
  exists user,
    Read (userHandler ah) username address = ([user], None) /\
    User_IsValid user address now = (true, None) /\
    User_Password user <> ""%string /\
    Verify (signingMethod ah) pw (User_Password user) (secretKey ah) = None /\
    claims = User_Data user.
Proof.
  split.
  - unfold Auth.
    destruct (String.eqb_spec username "") as [|Hu]; [discriminate|].
    unfold bind, call_Read, ret.
    destruct (Read (userHandler ah) username address) as [users [e|]];
      [discriminate|].
    destruct users as [|user [|user' users]]; try discriminate.
    destruct (User_IsValid user address now) as [ok [e|]] eqn:Hv; [discriminate|].
    destruct ok; cbn [negb]; [|discriminate].
    destruct (String.eqb_spec (User_Password user) "") as [|Hp]; [discriminate|].
    destruct (Verify _ _ _ _) as [[]|] eqn:Hver; try discriminate.
    intros Hc. injection Hc as <-.
    split; [assumption|]. exists user. repeat split; assumption.
  - intros (Hu & user & Hread & Hv & Hp & Hver & ->).
    rewrite (Auth_single ah user) by assumption. rewrite Hv.
    destruct (String.eqb_spec (User_Password user) ""); [contradiction|].
    now rewrite Hver.
Qed.

(** X10.  For a record with an empty stored password that is otherwise
    usable, [Auth] returns [ErrPasswordEmpty] whatever the password given and
    whatever the signing method would answer. *)
Theorem Auth_password_empty (ah : userAuthenticationHandler) (user : User)
    (address username pw : string) (now : Time) :
  username <> ""%string ->
  Read (userHandler ah) username address = ([user], None) ->
  User_IsValid user address now = (true, None) ->
  User_Password user = ""%string ->
  snd (Auth ah address username pw now) = (None, Some ErrPasswordEmpty).
Proof.
  intros Hu Hread Hv Hp.
  rewrite (Auth_single ah user) by assumption. now rewrite Hv, Hp.
Qed.

(** X11.  When the signing method rejects the password of a usable record,
    [Auth] returns [ErrPasswordNotMatch] for the error [ErrSignatureInvalid]
    and every other error of the signing method as it is. *)
Theorem Auth_verify_error (ah : userAuthenticationHandler) (user : User)
    (address username pw : string) (now : Time) (e : error) :
  username <> ""%string ->
  Read (userHandler ah) username address = ([user], None) ->
  User_IsValid user address now = (true, None) ->
  User_Password user <> ""%string ->
  Verify (signingMethod ah) pw (User_Password user) (secretKey ah) = Some e ->
  snd (Auth ah address username pw now) =
  (None, Some match e with
              | ErrSignatureInvalid => ErrPasswordNotMatch
              | _ => e
              end).
Proof.
  intros Hu Hread Hv Hp Hver.
  rewrite (Auth_single ah user) by assumption. rewrite Hv.
  destruct (String.eqb_spec (User_Password user) ""); [contradiction|].
  rewrite Hver. destruct e; reflexivity.
Qed.

(** An error of the lookup is returned as it is, after the one call
    to the handler, whatever records came with it. *)
Theorem Auth_read_error (ah : userAuthenticationHandler) (users : list User)
    (address username pw : string) (now : Time) (e : error) :
  username <> ""%string ->
  Read (userHandler ah) username address = (users, Some e) ->
  Auth ah address username pw now = ([CallRead username address], (None, Some e)).
Proof.
  intros Hu Hread. unfold Auth.
  destruct (String.eqb_spec username ""); [contradiction|].
  unfold bind, call_Read, ret. now rewrite Hread.
Qed.

(** X12.  A record whose lock is in force (set, and either without expiry
    or not yet expired) never authenticates: whatever the password and the
    signing method, [Auth] returns no claims and one of the errors of the
    usability check. *)
Theorem Auth_locked_record (ah : userAuthenticationHandler) (u : UserImpl)
    (address username pw : string) (now : Time) :
  username <> ""%string ->
  Read (userHandler ah) username address = ([as_User u], None) ->
  lockedAt u <> 0 ->
  lockedTimeExpires u = 0 \/ now < lockedAt u + lockedTimeExpires u ->
  exists e,
    snd (Auth ah address username pw now) = (None, Some e) /\
    (e = ErrUserLocked \/ e = ErrUserIPBlocked \/
     e = errorsNew ("client address is invalid - '" +:+ address +:+ "'")).
Proof.
  intros Hu Hread Hset Hlock.
  rewrite (Auth_single ah (as_User u)) by assumption.
  cbn [as_User User_IsValid].
  destruct (IsValid_results u address now) as [Hok | (e & He & Hkind)].
  - exfalso. unfold IsValid in Hok.
    destruct (CanUse_address u address); [discriminate|].
    apply CanUse_lock_true in Hok. destruct Hok as [?|[Hne Hle]]; [contradiction|].
    destruct Hlock; [contradiction | lia].
  - rewrite He. exists e. split; [reflexivity|]. tauto.
Qed.

(** ** Rows to user records *)

(** X13.  A record built by [toUser] carries the username it was asked
    for, the row itself as its data and the lock duration of the handler;
    its password is the text of the password column, or empty when the row
    has no such column or a nil in it. *)
Theorem toUser_fields (h : Db.dbUserHandler) (user : string) (row : Row)
    (u : UserImpl) :
  toUser h user row = inl u ->
  Name u = user /\
  Data u = row /\
  lockedTimeExpires u = Db.lockedTimeExpires h /\
  (index_map row (Db.passwordName h) = VString (Password u) \/
   index_map row (Db.passwordName h) = VNil /\ Password u = ""%string).
Proof.
  intros Hto. unfold toUser, and_then in Hto.
  destruct (index_map row (Db.passwordName h)) as [|s| | | | |] eqn:Hp;
    try discriminate;
    (destruct (match index_map row (Db.lockedFieldName h) with VNil => _ | _ => _ end)
       as [t|]; [|discriminate]);
    (destruct (match index_map row (Db.blockIPList h) with VNil => _ | _ => _ end)
       as [l|]; [|discriminate]);
    injection Hto as <-; unfold Name, Data, Password; simpl;
    repeat split; auto.
Qed.

(** X14.  A lock column with text in it never gives an unlocked record:
    when [toUser] succeeds on such a row, [lockedAt] is the time
    [parseTime] read from the text and is not the zero time (text that no
    layout parses makes [toUser] fail instead). *)
Theorem toUser_lock_text (h : Db.dbUserHandler) (user s : string) (row : Row)
    (u : UserImpl) :
  toUser h user row = inl u ->
  index_map row (Db.lockedFieldName h) = VString s ->
  s <> ""%string ->
  lockedAt u = parseTime (Db.lockedTimeLayout h) s /\ lockedAt u <> 0.
Proof.
  intros Hto Hcol Hs. unfold toUser, and_then in Hto. rewrite Hcol in Hto.
  destruct (match index_map row (Db.passwordName h) with VNil => _ | _ => _ end)
    as [p|]; [|discriminate].
  destruct (String.eqb_spec s ""); [contradiction|]. cbn [negb] in Hto.
  unfold IsZero in Hto.
  destruct (Z.eqb_spec (parseTime (Db.lockedTimeLayout h) s) 0) as [|Hnz];
    [discriminate|].
  destruct (match index_map row (Db.blockIPList h) with VNil => _ | _ => _ end)
    as [l|]; [|discriminate].
  injection Hto as <-. simpl. split; [reflexivity | assumption].
Qed.

(** X15.  The loop over the block-list column keeps the entries it was
    given and adds one checker for each text that is not blank, in order;
    blank texts add nothing. *)
Theorem toUser_blockIPList_appends (h : Db.dbUserHandler) (ipList : list string) :
  forall (acc r : list IPChecker),
    toUser_blockIPList h ipList acc = inl r ->
    exists more,
      r = acc ++ more /\
      length more =
      length (List.filter (fun s => negb (strings_TrimSpace s =? "")%string) ipList).
Proof.
  induction ipList as [|s rest IH]; intros acc r Hr; simpl in Hr.
  - injection Hr as <-. exists []. split; [now rewrite app_nil_r | reflexivity].
  - cbn [List.filter].
    destruct (String.eqb_spec (strings_TrimSpace s) "") as [Hb|Hb]; cbn [negb].
    + apply IH in Hr. exact Hr.
    + assert (Hstep : forall c, toUser_blockIPList h rest (acc ++ [c]) = inl r ->
                exists more, r = acc ++ more /\
                  length more = S (length (List.filter
                    (fun s => negb (strings_TrimSpace s =? "")%string) rest))).
      { intros c Hc. apply IH in Hc. destruct Hc as (more & -> & Hlen).
        exists (c :: more). split; [now rewrite <- app_assoc | simpl; lia]. }
      destruct (strings_Contains (strings_TrimSpace s) "-").
      * destruct (negb _); [discriminate|].
        destruct (IPRangeWith _ _) as [c|]; [|discriminate]. eauto.
      * destruct (strings_Contains (strings_TrimSpace s) "/").
        -- destruct (ParseCIDR _) as [c|]; [|discriminate]. eauto.
        -- destruct (IPRangeWith _ _) as [c|]; [|discriminate]. eauto.
Qed.

(** X16.  A time that [parseTime] returns, other than the zero time, was
    read by [time.Parse] with the configured layout or with one of the
    three fallback layouts. *)
Theorem parseTime_parsed (layout s : string) :
  parseTime layout s <> 0 ->
  exists l,
    In l [layout; RFC3339Nano; RFC3339;
          "2006-01-02 15:04:05.999999999Z07:00"%string] /\
    time_Parse l s = Some (parseTime layout s).
Proof.
  intros Hnz.
  assert (Hfb : forall t, parseTime_layouts
             [RFC3339Nano; RFC3339; "2006-01-02 15:04:05.999999999Z07:00"%string] s = t ->
           t <> 0 ->
           exists l, In l [layout; RFC3339Nano; RFC3339;
                           "2006-01-02 15:04:05.999999999Z07:00"%string] /\
                     time_Parse l s = Some t).
  { intros t Ht Hne. cbn [parseTime_layouts] in Ht.
    destruct (time_Parse RFC3339Nano s) as [t1|] eqn:E1.
    { subst. exists RFC3339Nano. simpl. auto. }
    destruct (time_Parse RFC3339 s) as [t2|] eqn:E2.
    { subst. exists RFC3339. simpl. auto. }
    destruct (time_Parse "2006-01-02 15:04:05.999999999Z07:00" s) as [t3|] eqn:E3.
    { subst. eexists. split; [|exact E3]. simpl. auto. }
    congruence. }
  unfold parseTime in *.
  destruct (negb (layout =? "")%string).
  - destruct (time_Parse layout s) as [t|] eqn:E.
    + exists layout. split; [now left | assumption].
    + now apply Hfb.
  - now apply Hfb.
Qed.

End MoreAuth.

(** ** Placeholder rewriting *)

Section MoreRewrite.
Local Open Scope string_scope.
Local Arguments String.append !_ _ : simpl nomatch.

Lemma Index_qmark_app (a b : string) :
  Index_qmark a = (-1)%Z -> Index_qmark b = (-1)%Z ->
  Index_qmark (a ++ b) = (-1)%Z.
Proof.
  intros Ha Hb. induction a as [|c a IH]; simpl in *; [assumption|].
  destruct (Ascii.eqb c "?"); [discriminate|].
  destruct (Z.eqb_spec (Index_qmark a) (-1)) as [Hz|Hz].
  - now rewrite IH.
  - pose proof (Index_qmark_ge a). lia.
Qed.

Lemma Index_qmark_digits (d : Decimal.uint) :
  Index_qmark (NilEmpty.string_of_uint d) = (-1)%Z.
Proof. induction d; simpl; try rewrite IHd; reflexivity. Qed.

Lemma Index_qmark_format_dollar (i : Z) : Index_qmark (format_dollar i) = (-1)%Z.
Proof.
  unfold format_dollar, NilZero.string_of_uint.
  apply Index_qmark_app; [reflexivity|].
  destruct (N.to_uint (Z.to_N i)); try reflexivity; apply Index_qmark_digits.
Qed.

Lemma has_doubled_cons (c c' : ascii) (rest : string) :
  has_doubled (String c (String c' rest)) =
  (Ascii.eqb c "?" && Ascii.eqb c' "?") || has_doubled (String c' rest).
Proof. reflexivity. Qed.

Lemma rewrite_from_no_doubled (s : string) :
  forall n, has_doubled s = false -> Index_qmark (rewrite_from n s) = (-1)%Z.
Proof.
  induction s as [|c rest IH]; intros n Hd; [reflexivity|].
  assert (Hrest : has_doubled rest = false).
  { destruct rest as [|c' rest']; [reflexivity|].
    rewrite has_doubled_cons in Hd. apply orb_false_iff in Hd. tauto. }
  cbn [rewrite_from].
  destruct (Ascii.eqb_spec c "?") as [->|Hc].
  - destruct rest as [|c' rest'].
    + apply Index_qmark_format_dollar.
    + rewrite has_doubled_cons in Hd. apply orb_false_iff in Hd.
      destruct Hd as [Hd _]. rewrite Ascii.eqb_refl in Hd. cbn [andb] in Hd.
      rewrite Hd.
      apply Index_qmark_app; [apply Index_qmark_format_dollar | now apply IH].
  - cbn [Index_qmark]. destruct (Ascii.eqb_spec c "?"); [contradiction|].
    now rewrite (IH n Hrest).
Qed.

(** X17.  A statement without placeholder is returned as it is. *)
Theorem ReplacePlaceholders_without_placeholder (sql : string) :
  Index_qmark sql = (-1)%Z -> ReplacePlaceholders sql = Some sql.
Proof.
  intros Hq. unfold ReplacePlaceholders.
  rewrite ReplacePlaceholders_loop_spec by lia.
  rewrite <- (append_empty_r sql) at 1.
  rewrite rewrite_from_no_qmark by assumption.
  simpl. now rewrite append_empty_r.
Qed.

(** X18.  When the statement has no doubled placeholder, no placeholder is
    left in the result: every ['?'] has become a numbered parameter. *)
Theorem ReplacePlaceholders_none_left (sql : string) :
  has_doubled sql = false ->
  exists out, ReplacePlaceholders sql = Some out /\ Index_qmark out = (-1)%Z.
Proof.
  intros Hd. exists (rewrite_from 0 sql). split.
  - unfold ReplacePlaceholders. now rewrite ReplacePlaceholders_loop_spec by lia.
  - now apply rewrite_from_no_doubled.
Qed.

End MoreRewrite.

(** ** The construction of the handlers, the lookup and the lock *)

Section MoreDatabase.
Context `{StdLib} `{SqlLib} `{Signing}.

Lemma string_param_insert_ne (m : Row) (k k' : string) (v : Value) :
  k <> k' -> string_param (<[k' := v]> m) k = string_param m k.
Proof.
  intros Hne. unfold string_param. rewrite lookup_insert_ne by congruence.
  reflexivity.
Qed.

Lemma ReplacePlaceholders_string_spec (sql : string) :
  ReplacePlaceholders sql = Some (ReplacePlaceholders_string sql).
Proof.
  unfold ReplacePlaceholders_string, ReplacePlaceholders.
  now rewrite ReplacePlaceholders_loop_spec by lia.
Qed.

(** The statements a handler is configured with, before any rewriting. *)
Lemma createDbUserHandler_params_statements (m : Row) (ah : Db.dbUserHandler) :
  createDbUserHandler_params m = inl ah ->
  Db.querySQL ah =
    match string_param m "querySQL" with
    | param_string s =>
        if negb (strings_TrimSpace s =? "")%string then s
        else "SELECT * FROM users WHERE username = ?"%string
    | _ => "SELECT * FROM users WHERE username = ?"%string
    end /\
  Db.lockSQL ah =
    match string_param m "lockSQL" with
    | param_string s =>
        if negb (strings_TrimSpace s =? "")%string then s else ""%string
    | _ => ""%string
    end.
Proof.
  unfold createDbUserHandler_params, and_then.
  destruct (match string_param m "password" with param_absent => _ | _ => _ end)
    as [pn|]; [|discriminate].
  destruct (match string_param m "block_list" with param_absent => _ | _ => _ end)
    as [bl|]; [|discriminate].
  destruct (match string_param m "locked_at" with param_absent => _ | _ => _ end)
    as [[[lf ll] le]|]; [|discriminate].
  destruct (string_param m "querySQL") as [| |q];
    destruct (string_param m "lockSQL") as [| |l];
    repeat match goal with |- context [negb ?b] => destruct (negb b) end;
    intros Heq; try discriminate Heq;
    injection Heq as <-; split; reflexivity.
Qed.

(** X19.  Without a [locked_at] parameter (absent, nil or blank) the
    parameters [locked_format] and [locked_time_expires] are not read:
    whatever they hold, of whatever type, [createDbUserHandler] gives the
    same handler or the same error. *)
Theorem createDbUserHandler_lock_parameters_unread (config : DbConfig)
    (m : Row) (v v' : Value) :
  Params config = Some m ->
  string_param m "locked_at" = param_absent \/
    (exists s, string_param m "locked_at" = param_string s /\
               strings_TrimSpace s = ""%string) ->
  createDbUserHandler
    (Some {| DbType := DbType config;
             URL := URL config;
             Params := Some (<["locked_format"%string := v]>
                               (<["locked_time_expires"%string := v']> m)) |})
  = createDbUserHandler (Some config).
Proof.
  intros Hm Hat. unfold createDbUserHandler. cbn [DbType URL Params]. rewrite Hm.
  cbn [default from_option]. unfold id.
  assert (Hp : createDbUserHandler_params
                 (<["locked_format"%string := v]>
                    (<["locked_time_expires"%string := v']> m))
               = createDbUserHandler_params m).
  { unfold createDbUserHandler_params.
    assert (Hk : forall k, k <> "locked_format"%string ->
                   k <> "locked_time_expires"%string ->
                   string_param (<["locked_format"%string := v]>
                      (<["locked_time_expires"%string := v']> m)) k
                   = string_param m k).
    { intros k Hk1 Hk2. now rewrite !string_param_insert_ne by assumption. }
    rewrite (Hk "password"%string), (Hk "block_list"%string),
      (Hk "locked_at"%string), (Hk "querySQL"%string), (Hk "lockSQL"%string)
      by discriminate.
    destruct Hat as [-> | (s & -> & Hs)]; [reflexivity|].
    cbv zeta. rewrite Hs. reflexivity. }
  now rewrite Hp.
Qed.

Lemma createDbUserHandler_params_not_string (m : Row) (key : string) :
  In key ["password"%string; "block_list"%string; "locked_at"%string;
          "querySQL"%string; "lockSQL"%string] ->
  string_param m key = param_other ->
  exists e, createDbUserHandler_params m = inr e.
Proof.
  intros Hin Hbad. unfold createDbUserHandler_params, and_then.
  cbn [In] in Hin.
  destruct Hin as [<-|[<-|[<-|[<-|[<-|[]]]]]]; rewrite Hbad;
    repeat match goal with
      | |- exists e, inr _ = inr e => eexists; reflexivity
      | |- exists e, match ?x with inl _ => _ | inr _ => _ end = inr e =>
          destruct x; [|eexists; reflexivity]
      | |- exists e, (let '(_, _) := ?x in _) = inr e => destruct x as [[? ?] ?]
      end.
Qed.

(** X20.  [createDbUserHandler] fails when one of the parameters
    [password], [block_list], [locked_at], [querySQL] or [lockSQL] holds a
    value that is neither nil nor a string. *)
Theorem createDbUserHandler_not_string (config : DbConfig) (m : Row)
    (key : string) :
  Params config = Some m ->
  In key ["password"%string; "block_list"%string; "locked_at"%string;
          "querySQL"%string; "lockSQL"%string] ->
  string_param m key = param_other ->
  exists e, createDbUserHandler (Some config) = inr e.
Proof.
  intros Hm Hin Hbad. unfold createDbUserHandler. rewrite Hm.
  destruct (sql_Open _ _) as [db|e]; [|now exists e].
  destruct (createDbUserHandler_params_not_string m key Hin Hbad) as [e He].
  cbn [default from_option]. unfold id. rewrite He. now exists e.
Qed.

(** X21.  For a database of type [postgres] or [postgresql] the handler
    holds the query and the lock statement as [ReplacePlaceholders] rewrites
    them, and for every other type as they are configured; the statements
    configured are the parameters [querySQL] and [lockSQL] when they are
    not blank, and else the default query and no lock statement. *)
Theorem createDbUserHandler_statements (config : DbConfig) (db : DB)
    (h : Db.dbUserHandler) :
  createDbUserHandler (Some config) = inl (db, h) ->
  exists q l,
    q = match string_param (default ∅ (Params config)) "querySQL" with
        | param_string s =>
            if negb (strings_TrimSpace s =? "")%string then s
            else "SELECT * FROM users WHERE username = ?"%string
        | _ => "SELECT * FROM users WHERE username = ?"%string
        end /\
    l = match string_param (default ∅ (Params config)) "lockSQL" with
        | param_string s =>
            if negb (strings_TrimSpace s =? "")%string then s else ""%string
        | _ => ""%string
        end /\
    if (DbType config =? "postgres")%string
       || (DbType config =? "postgresql")%string
    then ReplacePlaceholders q = Some (Db.querySQL h) /\
         ReplacePlaceholders l = Some (Db.lockSQL h)
    else Db.querySQL h = q /\ Db.lockSQL h = l.
Proof.
  unfold createDbUserHandler, and_then.
  destruct (sql_Open _ _) as [db'|]; [|discriminate].
  destruct (createDbUserHandler_params _) as [ah|] eqn:Hp; [|discriminate].
  apply createDbUserHandler_params_statements in Hp. destruct Hp as [Hq Hl].
  intros Hr. do 2 eexists. split; [reflexivity|]. split; [reflexivity|].
  destruct (_ || _); injection Hr as <- <-.
  - cbn [Db.querySQL Db.lockSQL]. rewrite <- Hq, <- Hl.
    split; apply ReplacePlaceholders_string_spec.
  - now split.
Qed.

(** X22.  When the handler is built without a [lockSQL] parameter
    (absent, nil or blank), for whatever type of database, [LockUser]
    returns no error and makes no call to the database. *)
Theorem LockUser_without_lockSQL (config : DbConfig) (db : DB)
    (h : Db.dbUserHandler) (username : string) (now : Time) :
  createDbUserHandler (Some config) = inl (db, h) ->
  (forall s, string_param (default ∅ (Params config)) "lockSQL" = param_string s ->
             strings_TrimSpace s = ""%string) ->
  LockUser db h username now = ([], None).
Proof.
  intros Hc Hblank.
  assert (Hl : Db.lockSQL h = ""%string).
  { unfold createDbUserHandler, and_then in Hc.
    destruct (sql_Open _ _) as [db'|]; [|discriminate].
    destruct (createDbUserHandler_params _) as [ah|] eqn:Hp; [|discriminate].
    apply createDbUserHandler_params_statements in Hp. destruct Hp as [_ Hl].
    assert (Hah : Db.lockSQL ah = ""%string).
    { rewrite Hl.
      destruct (string_param _ "lockSQL") as [| |s]; try reflexivity.
      now rewrite (Hblank s eq_refl). }
    destruct (_ || _); injection Hc as <- <-; [|assumption].
    cbn [Db.lockSQL]. now rewrite Hah. }
  unfold LockUser. now rewrite Hl.
Qed.

(** X23.  [LockUser] returns no error exactly when there is no lock
    statement, or the update ran and reports a number of rows other than
    zero; it calls the database exactly when there is a lock statement, once,
    with the statement, the current time and the username. *)
Theorem LockUser_result (db : DB) (ah : Db.dbUserHandler) (username : string)
    (now : Time) :
  (snd (LockUser db ah username now) = None <->
   Db.lockSQL ah = ""%string \/
   exists res n,
     db_Exec db (Db.lockSQL ah) now username = inl res /\
     RowsAffected res = inl n /\ n <> 0) /\
  fst (LockUser db ah username now) =
    if (Db.lockSQL ah =? "")%string then []
    else [CallExec (Db.lockSQL ah) now username].
Proof.
  unfold LockUser.
  destruct (String.eqb_spec (Db.lockSQL ah) "") as [He|Hne]; cbn [fst snd].
  - split; [|reflexivity]. split; [now left | reflexivity].
  - split; [|reflexivity].
    destruct (db_Exec db (Db.lockSQL ah) now username) as [res|e].
    + destruct (RowsAffected res) as [n|e] eqn:Hn.
      * destruct (Z.eqb_spec n 0) as [->|Hn0].
        -- split; [discriminate|].
           intros [?|(res' & n' & Hres & Hn' & Hnz)]; [contradiction|].
           injection Hres as <-. congruence.
        -- split; [|reflexivity]. intros _. right. now exists res, n.
      * split; [discriminate|].
        intros [?|(res' & n' & Hres & Hn' & _)]; [contradiction|].
        injection Hres as <-. congruence.
    + split; [discriminate|].
      intros [?|(res' & n' & Hres & _)]; [contradiction | discriminate].
Qed.

Lemma cell_value_no_bytes (c : Cell) : no_bytes (cell_value c).
Proof.
  intros bs. destruct c as [|[]]; simpl; intros Hv; try discriminate.
  now injection Hv as <-.
Qed.

Lemma ReadUser_row_no_bytes (columns : list string) (values : list Cell) :
  forall (idx : nat) (user : Row),
    (forall k v, user !! k = Some v -> no_bytes v) ->
    forall k v, ReadUser_row columns values idx user !! k = Some v -> no_bytes v.
Proof.
  induction columns as [|nm rest IH]; intros idx user Huser k v; simpl.
  - apply Huser.
  - apply IH. intros k' v'. rewrite lookup_insert.
    destruct (decide (nm = k')); [|apply Huser].
    intros Hv. injection Hv as <-. apply cell_value_no_bytes.
Qed.

Lemma toUser_inl (h : Db.dbUserHandler) (user : string) (row : Row) (u : UserImpl) :
  toUser h user row = inl u ->
  Name u = user /\ Data u = row /\ lockedTimeExpires u = Db.lockedTimeExpires h.
Proof.
  intros Hto. unfold toUser, and_then in Hto.
  destruct (match index_map row (Db.passwordName h) with VNil => _ | _ => _ end)
    as [p|]; [|discriminate].
  destruct (match index_map row (Db.lockedFieldName h) with VNil => _ | _ => _ end)
    as [t|]; [|discriminate].
  destruct (match index_map row (Db.blockIPList h) with VNil => _ | _ => _ end)
    as [l|]; [|discriminate].
  injection Hto as <-. repeat split.
Qed.

Lemma ReadUser_rows_records (ah : Db.dbUserHandler) (username : string)
    (columns : list string + error) (scans : list (list Cell + error)) :
  forall acc users,
    ReadUser_rows ah username columns scans acc = inl users ->
    Forall (read_record ah username) acc ->
    Forall (read_record ah username) users /\
    length users = (length acc + length scans)%nat.
Proof.
  induction scans as [|scan rest IH]; intros acc users Hr Hacc; simpl in Hr.
  - injection Hr as <-. split; [assumption | simpl; lia].
  - unfold and_then in Hr.
    destruct columns as [cols|]; [|discriminate].
    destruct scan as [values|]; [|discriminate].
    destruct (toUser ah username _) as [u|] eqn:Hu; [|discriminate].
    apply IH in Hr.
    + destruct Hr as [Hall Hlen]. split; [assumption|].
      rewrite Hlen, length_app. simpl. lia.
    + apply Forall_app. split; [assumption|]. constructor; [|constructor].
      apply toUser_inl in Hu. destruct Hu as (Hn & Hd & He).
      repeat split; try assumption.
      rewrite Hd. apply ReadUser_row_no_bytes. intros k v.
      rewrite lookup_empty. discriminate.
Qed.

(** X24.  [ReadUser] never returns records together with an error: the
    error is nil or the list is empty. *)
Theorem ReadUser_records_or_error (db : DB) (ah : Db.dbUserHandler)
    (username : string) :
  snd (ReadUser db ah username) = None \/ fst (ReadUser db ah username) = [].
Proof.
  unfold ReadUser.
  destruct (db_Query db (Db.querySQL ah) username) as [rows|e].
  - destruct (ReadUser_rows _ _ _ _ _) as [users|e]; [|now right].
    destruct (rows_Err rows); [|now left]. now right.
  - right. now destruct (bool_decide _).
Qed.

(** X25.  When the query succeeds and every row it delivers gives a
    record, but the rows end with an error ([rows.Err()] is not nil),
    [ReadUser] returns no record and no error: the error of the iteration is
    not reported, and the records read before it are dropped. *)
Theorem ReadUser_iteration_error (db : DB) (ah : Db.dbUserHandler)
    (username : string) (rows : Rows) (users : list UserImpl) (e : error) :
  db_Query db (Db.querySQL ah) username = inl rows ->
  ReadUser_rows ah username (rows_Columns rows) (rows_Scan rows) [] = inl users ->
  rows_Err rows = Some e ->
  ReadUser db ah username = ([], None).
Proof.
  intros Hq Hrows Herr. unfold ReadUser. now rewrite Hq, Hrows, Herr.
Qed.

(** X26.  When the query fails with [sql.ErrNoRows], or succeeds and
    delivers no row, [ReadUser] returns the empty list and no error. *)
Theorem ReadUser_no_rows (db : DB) (ah : Db.dbUserHandler) (username : string) :
  db_Query db (Db.querySQL ah) username = inr sql_ErrNoRows \/
    (exists rows, db_Query db (Db.querySQL ah) username = inl rows /\
                  rows_Scan rows = []) ->
  ReadUser db ah username = ([], None).
Proof.
  intros [Hq | (rows & Hq & Hs)]; unfold ReadUser; rewrite Hq.
  - now rewrite bool_decide_eq_true_2.
  - rewrite Hs. simpl. now destruct (rows_Err rows).
Qed.

(** X27.  The records that [ReadUser] returns carry the username that was
    asked for and the lock duration of the handler, and their data holds no
    byte slice with bytes in it: the bytes of a column have become a string.
    When the rows end without error there is one record for each row. *)
Theorem ReadUser_records (db : DB) (ah : Db.dbUserHandler) (username : string)
    (users : list UserImpl) :
  ReadUser db ah username = (users, None) ->
  Forall (fun u =>
            Name u = username /\
            lockedTimeExpires u = Db.lockedTimeExpires ah /\
            forall k bs, Data u !! k = Some (VBytes bs) -> bs = ""%string)
         users /\
  forall rows,
    db_Query db (Db.querySQL ah) username = inl rows ->
    rows_Err rows = None ->
    length users = length (rows_Scan rows).
Proof.
  intros Hr. unfold ReadUser in Hr.
  destruct (db_Query db (Db.querySQL ah) username) as [rows|e].
  - destruct (ReadUser_rows _ _ _ _ _) as [us|e] eqn:Hrows; [|discriminate].
    apply ReadUser_rows_records in Hrows; [|constructor].
    destruct Hrows as [Hall Hlen].
    destruct (rows_Err rows) eqn:Herr.
    + cbn in Hr. injection Hr as <-. split; [constructor|].
      intros rows' Hq. injection Hq as <-. congruence.
    + injection Hr as <-. split.
      * eapply Forall_impl; [exact Hall|].
        intros u (Hn & He & Hd). repeat split; try assumption.
        intros k bs Hk. exact (Hd k _ Hk bs eq_refl).
      * intros rows' Hq _. injection Hq as <-. exact Hlen.
  - destruct (bool_decide _); injection Hr as <-; (split; [constructor|]);
      intros rows' Hq; discriminate.
Qed.

(** X28.  A configuration without [passwordHashAlg] (absent or nil) gives
    the handler of the nil configuration, with the default method and no
    key: [passwordHashKey] is not read, whatever it holds. *)
Theorem CreateUserAuthenticationHandler_key_without_alg (uh : UserHandler)
    (m : Row) :
  string_param m "passwordHashAlg" = param_absent ->
  CreateUserAuthenticationHandler uh (config_map m)
    = CreateUserAuthenticationHandler uh config_nil /\
  CreateUserAuthenticationHandler uh config_nil
    = inl {| userHandler := uh;
             signingMethod := methodDefault;
             secretKey := "" |}.
Proof.
  intros Halg. unfold CreateUserAuthenticationHandler. rewrite Halg.
  split; reflexivity.
Qed.


End MoreDatabase.

(** ** The further properties at concrete inputs *)

(** The entry 10.0.0.1 of a block list and the caller 192.168.0.1. *)
Lemma IPRangeWith_single_contains_all_witness :
  IPRangeWith "10.0.0.1" "10.0.0.1"
    = inl {| start := 167772161; end_ := 167772161 |} /\
  Contains (RangeChecker {| start := 167772161; end_ := 167772161 |})
           [192; 168; 0; 1] = true.
Proof.
  split; [reflexivity|].
  apply (IPRangeWith_single_contains_all "10.0.0.1" _ [192; 168; 0; 1]
           [192; 168; 0; 1]); reflexivity.
Defined.

(** A lock of 30 minutes, one hour and two hours after it was set. *)
Lemma CanUse_stays_usable_witness :
  CanUse (locked_user (30 * Minute) []) (request_from "192.168.0.1:4000")
         (lock_instant + 2 * Hour)
    = (true, None).
Proof.
  apply (CanUse_stays_usable _ _ (lock_instant + Hour));
    [reflexivity | discriminate].
Defined.

Lemma CanUse_not_locked_witness :
  CanUse alice (request_from "192.168.0.1:4000") lock_instant = (true, None).
Proof.
  exact (CanUse_not_locked alice (request_from "192.168.0.1:4000") lock_instant
           eq_refl).
Defined.

(** The list 10.0.0.0/8 and the same list with the entry 192.168.0.1
    added, for a caller inside 10.0.0.0/8. *)
Lemma CanUse_more_entries_witness :
  CanUse (locked_user (30 * Minute)
            [net10; RangeChecker {| start := 3232235521; end_ := 3232235521 |}])
         (request_from "10.1.2.3:4000") (lock_instant + Hour)
    = (true, None).
Proof.
  apply (CanUse_more_entries (locked_user (30 * Minute) [net10]) _
           [RangeChecker {| start := 3232235521; end_ := 3232235521 |}]);
    [discriminate | reflexivity | reflexivity | reflexivity | reflexivity].
Defined.

Lemma CanUse_entries_order_witness :
  CanUse (locked_user 0
            [RangeChecker {| start := 3232235521; end_ := 3232235521 |}; net10])
         (request_from "10.1.2.3:4000") lock_instant
  = CanUse (locked_user 0
              [net10; RangeChecker {| start := 3232235521; end_ := 3232235521 |}])
           (request_from "10.1.2.3:4000") lock_instant.
Proof.
  apply CanUse_entries_order; [apply perm_swap | reflexivity | reflexivity].
Defined.

(** Two requests with the header 10.1.2.3 from two different peers. *)
Lemma CanUse_forwarded_for_witness :
  RealIP (forwarded_request "192.168.0.1:4000" "10.1.2.3") = "10.1.2.3"%string /\
  CanUse (locked_user 0 [net10]) (forwarded_request "172.16.0.9:5000" "10.1.2.3")
         lock_instant
  = CanUse (locked_user 0 [net10]) (forwarded_request "192.168.0.1:4000" "10.1.2.3")
           lock_instant.
Proof.
  apply (CanUse_forwarded_for (locked_user 0 [net10])
           (forwarded_request "192.168.0.1:4000" "10.1.2.3")
           (forwarded_request "172.16.0.9:5000" "10.1.2.3") lock_instant);
    [discriminate | reflexivity].
Defined.

(** A record with no stored password. *)
Lemma Auth_password_empty_witness :
  snd (Auth (handler_of
               [as_User {| name := "dave"; password := ""; lockedAt := 0;
                           lockedTimeExpires := 0; blockIPList := [];
                           data := ∅ |}])
            "192.168.0.1" "dave" "anything" lock_instant)
    = (None, Some ErrPasswordEmpty).
Proof.
  apply (Auth_password_empty _
           (as_User {| name := "dave"; password := ""; lockedAt := 0;
                       lockedTimeExpires := 0; blockIPList := [];
                       data := ∅ |}));
    [discriminate | reflexivity | reflexivity | reflexivity].
Defined.

Lemma Auth_verify_error_witness :
  snd (Auth (handler_of [as_User alice]) "192.168.0.1" "alice" "wrong"
            lock_instant)
    = (None, Some ErrPasswordNotMatch).
Proof.
  apply (Auth_verify_error (handler_of [as_User alice]) (as_User alice)
           "192.168.0.1" "alice" "wrong" lock_instant ErrSignatureInvalid);
    [discriminate | reflexivity | reflexivity | discriminate | reflexivity].
Defined.

(** A record locked for good, asked with the right password. *)
Lemma Auth_locked_record_witness :
  exists e,
    snd (Auth (handler_of [as_User (locked_user 0 [])]) "192.168.0.1" "carol"
              "s3cret" (lock_instant + Hour))
      = (None, Some e) /\
    (e = ErrUserLocked \/ e = ErrUserIPBlocked \/
     e = errorsNew ("client address is invalid - '" +:+ "192.168.0.1" +:+ "'")).
Proof.
  apply (Auth_locked_record (handler_of [as_User (locked_user 0 [])])
           (locked_user 0 []));
    [discriminate | reflexivity | discriminate | left; reflexivity].
Defined.

Lemma toUser_fields_witness :
  Name alice = "alice"%string /\
  Data alice = alice_row /\
  lockedTimeExpires alice = Db.lockedTimeExpires default_config /\
  (index_map alice_row (Db.passwordName default_config) = VString (Password alice) \/
   index_map alice_row (Db.passwordName default_config) = VNil /\
   Password alice = ""%string).
Proof.
  exact (toUser_fields default_config "alice" alice_row alice eq_refl).
Defined.

(** The row of carol, whose lock column holds the first instant of 2024. *)
Lemma toUser_lock_text_witness :
  exists u : @UserImpl example_lib_time,
    @toUser example_lib_time lock_config "carol" carol_row = inl u /\
    @lockedAt example_lib_time u = lock_instant /\
    @lockedAt example_lib_time u <> 0.
Proof.
  eexists. split; [reflexivity|].
  destruct (@toUser_lock_text example_lib_time lock_config "carol"
              "2024-01-01T00:00:00Z" carol_row _ eq_refl eq_refl
              ltac:(discriminate)) as [Hat Hnz].
  split; [exact Hat | exact Hnz].
Defined.

(** A block-list column with two addresses and a blank between them. *)
Lemma toUser_blockIPList_appends_witness :
  exists more,
    [RangeChecker {| start := 167772161; end_ := 167772161 |};
     RangeChecker {| start := 167772162; end_ := 167772162 |}]
      = [] ++ more /\
    length more = 2%nat.
Proof.
  exact (toUser_blockIPList_appends default_config
           ["10.0.0.1"%string; ""%string; "10.0.0.2"%string] [] _ eq_refl).
Defined.

Lemma parseTime_parsed_witness :
  exists l,
    In l [""%string; RFC3339Nano; RFC3339;
          "2006-01-02 15:04:05.999999999Z07:00"%string] /\
    @time_Parse example_lib_time l "2024-01-01T00:00:00Z" = Some lock_instant.
Proof.
  exact (@parseTime_parsed example_lib_time "" "2024-01-01T00:00:00Z"
           ltac:(discriminate)).
Defined.

Lemma ReplacePlaceholders_without_placeholder_witness :
  ReplacePlaceholders "SELECT 1" = Some "SELECT 1"%string.
Proof.
  exact (ReplacePlaceholders_without_placeholder "SELECT 1" eq_refl).
Defined.

Lemma ReplacePlaceholders_none_left_witness :
  exists out,
    ReplacePlaceholders "UPDATE users SET locked_at = ? WHERE username = ?"
      = Some out /\
    Index_qmark out = -1.
Proof.
  exact (ReplacePlaceholders_none_left
           "UPDATE users SET locked_at = ? WHERE username = ?" eq_refl).
Defined.

(** A configuration without [locked_at], with and without a
    [locked_time_expires] that is a number and a [locked_format]. *)
Lemma createDbUserHandler_lock_parameters_unread_witness :
  createDbUserHandler
    (Some (example_config "mysql"
             (<["locked_format"%string := VString "2006-01-02"]>
                (<["locked_time_expires"%string := VInt64 30]>
                   {[ "password"%string := VString "secret" ]}))))
  = createDbUserHandler
      (Some (example_config "mysql" {[ "password"%string := VString "secret" ]})).
Proof.
  exact (createDbUserHandler_lock_parameters_unread
           (example_config "mysql" {[ "password"%string := VString "secret" ]})
           {[ "password"%string := VString "secret" ]}
           (VString "2006-01-02") (VInt64 30) eq_refl (or_introl eq_refl)).
Defined.

Lemma createDbUserHandler_not_string_witness :
  exists e,
    createDbUserHandler
      (Some (example_config "mysql" {[ "querySQL"%string := VInt64 1 ]}))
    = inr e.
Proof.
  apply (createDbUserHandler_not_string _ {[ "querySQL"%string := VInt64 1 ]}
           "querySQL"); [reflexivity | simpl; tauto | reflexivity].
Defined.

(** The default statements for a postgres database. *)
Lemma createDbUserHandler_statements_witness :
  ReplacePlaceholders "SELECT * FROM users WHERE username = ?"
    = Some "SELECT * FROM users WHERE username = $1"%string /\
  ReplacePlaceholders "" = Some ""%string.
Proof.
  assert (Hc : createDbUserHandler (Some postgres_config)
               = inl (example_db, postgres_handler))
    by (vm_compute; reflexivity).
  destruct (createDbUserHandler_statements postgres_config example_db
              postgres_handler Hc) as (q & l & -> & -> & Hq & Hl).
  split; [exact Hq | exact Hl].
Defined.

Lemma LockUser_without_lockSQL_witness :
  LockUser example_db postgres_handler "alice" lock_instant = ([], None).
Proof.
  apply (LockUser_without_lockSQL postgres_config).
  - vm_compute. reflexivity.
  - intros s Hs. discriminate Hs.
Defined.

(** The row of alice from a database whose rows end with an error. *)
Lemma ReadUser_iteration_error_witness :
  @ReadUser example_lib example_sql_broken example_db_broken default_config "alice" = ([], None).
Proof.
  exact (@ReadUser_iteration_error example_lib example_sql_broken example_db_broken
           default_config "alice" _ [alice] (errorsNew "connection reset")
           eq_refl eq_refl eq_refl).
Defined.

Lemma ReadUser_no_rows_witness :
  ReadUser example_db default_config "bob" = ([], None).
Proof.
  apply ReadUser_no_rows. right. eexists. split; reflexivity.
Defined.

Lemma ReadUser_records_witness :
  ReadUser example_db default_config "alice" = ([alice], None) /\
  Forall (fun u =>
            Name u = "alice"%string /\
            lockedTimeExpires u = Db.lockedTimeExpires default_config /\
            forall k bs, Data u !! k = Some (VBytes bs) -> bs = ""%string)
         [alice].
Proof.
  split; [reflexivity|].
  exact (proj1 (ReadUser_records example_db default_config "alice" [alice] eq_refl)).
Defined.

Lemma CreateUserAuthenticationHandler_key_without_alg_witness :
  CreateUserAuthenticationHandler (fixed_handler [])
    (config_map {[ "passwordHashKey"%string := VInt64 7 ]})
  = CreateUserAuthenticationHandler (fixed_handler []) config_nil.
Proof.
  exact (proj1 (CreateUserAuthenticationHandler_key_without_alg
                  (fixed_handler []) {[ "passwordHashKey"%string := VInt64 7 ]}
                  eq_refl)).
Defined.

